(** * venv-manager: a shallow embedding of [venv-manager.py]

    The development follows the source file top to bottom:
    - [VenvScanner.trim_path] on strings,
    - a file-system model (regular files, directories, symbolic links)
      with the [pathlib] queries the program uses,
    - [VenvScanner] ([_get_python_path], [get_venv_packages],
      [is_virtualenv], [get_dir_size], [get_dir_age_days],
      [scan_virtualenvs], [remove_virtualenv]) in a monad of state
      and exceptions over the file system and an event trace,
    - [VenvManager] ([display_venv_info], [process_virtualenvs]) and
      [main].

    Definitions come first, theorems afterwards. *)

From Stdlib Require Import List String Ascii ZArith QArith Bool Lia.
Import ListNotations.

Set Warnings "-register-all".

Local Open Scope string_scope.
Local Open Scope list_scope.
Local Open Scope Z_scope.

(** ** Strings as Python uses them in [trim_path] *)

(** [len(s)] as a Python integer. *)
Definition len (s : string) : Z := Z.of_nat (String.length s).

(** [s.split(sep)] for a one-character separator: one more part than
    there are separators, the empty string giving one empty part. *)
Fixpoint split (sep : ascii) (s : string) : list string :=
  match s with
  | EmptyString => [EmptyString]
  | String c r =>
      if Ascii.eqb c sep then EmptyString :: split sep r
      else match split sep r with
           | h :: t => String c h :: t
           | [] => [String c EmptyString]
           end
  end.

(** [sep.join(parts)]. *)
Fixpoint join (sep : ascii) (parts : list string) : string :=
  match parts with
  | [] => EmptyString
  | [p] => p
  | p :: rest => (p ++ String sep (join sep rest))%string
  end.

(** [l[-2:]]: the last two elements, or all of them when there are fewer. *)
Definition last_two {A} (l : list A) : list A :=
  skipn (List.length l - 2) l.

(** [l[1:-2]]: from index 1 up to, excluding, the last two. *)
Definition middle {A} (l : list A) : list A :=
  firstn (List.length l - 2 - 1) (skipn 1 l).

(** [l[0]] and [l[-1]] of a list of strings; [split] never returns the
    empty list, so the default is not reached from [trim_path]. *)
Definition first_part (l : list string) : string := hd EmptyString l.
Definition last_part (l : list string) : string := List.last l EmptyString.

(** The [for part in path_parts[1:-2]] loop of [trim_path], with its
    [break]: leading segments are appended while the candidate prefix
    stays within [available_start]. *)
Fixpoint pack (sep : ascii) (available_start : Z) (start : string)
         (parts : list string) : string :=
  match parts with
  | [] => start
  | part :: rest =>
      let candidate := (start ++ String sep part)%string in
      if len candidate <=? available_start
      then pack sep available_start candidate rest
      else start
  end.

Definition ellipsis : string := "...".

Definition end_parts (sep : ascii) (path_str : string) : list string :=
  last_two (split sep path_str).

Definition end_len (sep : ascii) (path_str : string) : Z :=
  len (join sep (end_parts sep path_str)).

Definition available_start (sep : ascii) (path_str : string) (max_length : Z) : Z :=
  max_length - end_len sep path_str - 5.

(** [VenvScanner.trim_path]; [sep] is [os.sep]. *)
Definition trim_path (sep : ascii) (path_str : string) (max_length : Z) : string :=
  if len path_str <=? max_length then path_str
  else
    let path_parts := split sep path_str in
    let end_parts := last_two path_parts in
    let end_len := len (join sep end_parts) in
    let available_start := max_length - end_len - 5 in
    if available_start <=? 0
    then (ellipsis ++ String sep (last_part end_parts))%string
    else
      let start := pack sep available_start (first_part path_parts) (middle path_parts) in
      (start ++ String sep (ellipsis ++ String sep (join sep end_parts)))%string.

Definition default_max_length : Z := 132.

Definition posix_sep : ascii := "/"%char.


(** ** The file system

    A path is the list of its components below the file-system root
    (pathlib's [Path], absolute and without [.] or [..]).  A node is a
    regular file with the two [stat] fields the program reads, a
    directory, or a symbolic link holding an absolute target.
    [st_mtime] is a float in the program, which only compares these
    values and hands the greatest to [datetime.fromtimestamp]: it is
    kept as an integer that orders the same way (whole microseconds
    in the examples).  A directory carries one permission, whether
    entries may be removed from it; reading is always allowed, and the
    other attributes of directories are not modelled: the program
    never reads them. *)

Definition Path := list string.

Inductive node : Type :=
| File (st_size : Z) (st_mtime : Z)
| Dir (writable : bool) (entries : list (string * node))
| Symlink (target : Path).

(** The entry called [name] of a directory listing. *)
Fixpoint lookup_entry (name : string) (es : list (string * node)) : option node :=
  match es with
  | [] => None
  | (k, n) :: tl => if String.eqb k name then Some n else lookup_entry name tl
  end.

(** One pass of path resolution from [cur]: the node reached, or the
    path to restart with from the root when a symbolic link stands
    before the last component, or nothing (ENOENT, ENOTDIR). *)
Inductive walk_result : Type :=
| Found (n : node)
| Redirect (p : Path)
| Missing.

Fixpoint descend (cur : node) (p : Path) : walk_result :=
  match p with
  | [] => Found cur
  | c :: rest =>
      match cur with
      | Dir _ es =>
          match lookup_entry c es with
          | Some n => descend n rest
          | None => Missing
          end
      | Symlink t => Redirect (t ++ p)
      | File _ _ => Missing
      end
  end.

(** The kernel gives up after this many symbolic links in one
    resolution (ELOOP). *)
Definition MAXSYMLINKS : nat := 40.

(** [stat]: resolution that follows a final symbolic link too.  The
    second component is the number of links that may still be followed. *)
Fixpoint follow (fuel : nat) (root : node) (p : Path) : option (node * nat) :=
  match fuel with
  | O => None
  | S f =>
      match descend root p with
      | Found (Symlink t) => follow f root t
      | Found n => Some (n, f)
      | Redirect q => follow f root q
      | Missing => None
      end
  end.

(** [lstat]: a final symbolic link is not followed.  The path returned
    leads to the node through directories only. *)
Fixpoint locate (fuel : nat) (root : node) (p : Path) : option (Path * node) :=
  match fuel with
  | O => None
  | S f =>
      match descend root p with
      | Found n => Some (p, n)
      | Redirect q => locate f root q
      | Missing => None
      end
  end.

(** [Path.resolve()] (not strict): links are replaced by their
    targets as far as the path exists. *)
Fixpoint realpath (fuel : nat) (root : node) (p : Path) : Path :=
  match fuel with
  | O => p
  | S f =>
      match descend root p with
      | Found (Symlink t) => realpath f root t
      | Found _ => p
      | Redirect q => realpath f root q
      | Missing => p
      end
  end.

(** What [follow] does with the outcome of one pass when [fuel] links
    may still be followed. *)
Definition continue (fuel : nat) (root : node) (r : walk_result) : option (node * nat) :=
  match r with
  | Found (Symlink t) => follow fuel root t
  | Found n => Some (n, fuel)
  | Redirect q => follow fuel root q
  | Missing => None
  end.

Definition stat (fs : node) (p : Path) : option node :=
  option_map fst (follow (S MAXSYMLINKS) fs p).

Definition lstat (fs : node) (p : Path) : option node :=
  option_map snd (locate (S MAXSYMLINKS) fs p).

Definition resolve (fs : node) (p : Path) : Path :=
  realpath (S MAXSYMLINKS) fs p.

(** [Path.exists()], [is_dir()], [is_file()], [is_symlink()]. *)
Definition exists_ (fs : node) (p : Path) : bool :=
  match stat fs p with Some _ => true | None => false end.

Definition is_dir (fs : node) (p : Path) : bool :=
  match stat fs p with Some (Dir _ _) => true | _ => false end.

Definition is_file (fs : node) (p : Path) : bool :=
  match stat fs p with Some (File _ _) => true | _ => false end.

Definition is_symlink (fs : node) (p : Path) : bool :=
  match lstat fs p with Some (Symlink _) => true | _ => false end.

(** The fields of [os.stat_result] the program reads; both are asked
    of regular files only. *)
Definition size_of (n : node) : Z :=
  match n with File s _ => s | _ => 0 end.

Definition mtime_of (n : node) : Z :=
  match n with File _ m => m | _ => 0 end.

(** Every entry beneath a directory, as a path relative to it, each
    once and each directory before its contents.  Symbolic links are
    listed and not entered ([recurse_symlinks] is off).  The order in
    which [pathlib] yields the entries depends on the operating
    system; here it is that of the directory listings, depth first.
    The program is indifferent to it but for the order of its output. *)
Fixpoint listing (n : node) : list Path :=
  match n with
  | Dir _ es =>
      flat_map (fun '(name, c) => [name] :: map (cons name) (listing c)) es
  | _ => []
  end.

(** [path.rglob('*')]. *)
Definition rglob (fs : node) (p : Path) : list Path :=
  match stat fs p with
  | Some (Dir wr es) => map (app p) (listing (Dir wr es))
  | _ => []
  end.



(** *** [shutil.rmtree] *)

Fixpoint delete_entry (name : string) (es : list (string * node)) : list (string * node) :=
  match es with
  | [] => []
  | (k, n) :: tl =>
      if String.eqb k name then delete_entry name tl
      else (k, n) :: delete_entry name tl
  end.

Fixpoint update_entry (name : string) (f : node -> node) (es : list (string * node))
  : list (string * node) :=
  match es with
  | [] => []
  | (k, n) :: tl =>
      if String.eqb k name then (k, f n) :: update_entry name f tl
      else (k, n) :: update_entry name f tl
  end.

(** The tree without the entry at [p]; the root is no entry. *)
Fixpoint remove_at (cur : node) (p : Path) : node :=
  match p with
  | [] => cur
  | [c] => match cur with Dir wr es => Dir wr (delete_entry c es) | _ => cur end
  | c :: rest =>
      match cur with
      | Dir wr es => Dir wr (update_entry c (fun n => remove_at n rest) es)
      | _ => cur
      end
  end.

(** The tree with [new] in the place of what lies at [p]. *)
Fixpoint replace_at (cur : node) (p : Path) (new : node) : node :=
  match p with
  | [] => new
  | c :: rest =>
      match cur with
      | Dir wr es => Dir wr (update_entry c (fun n => replace_at n rest new) es)
      | _ => cur
      end
  end.

(** Emptying the entries of a directory up to the first entry that
    cannot be removed: a regular file or a link is unlinked, a
    directory is emptied and then removed, each if the directory they
    are in is writable.  What is left, and whether all went.  The
    entries are taken in the order of the listing; the order in which
    [shutil.rmtree] takes them decides only what is left after a
    failure. *)
Fixpoint clear_entries (clear : node -> node * bool) (wr : bool)
         (es : list (string * node)) : list (string * node) * bool :=
  match es with
  | [] => ([], true)
  | (k, c) :: tl =>
      match c with
      | Dir _ _ =>
          let (c', ok) := clear c in
          if ok && wr then clear_entries clear wr tl else ((k, c') :: tl, false)
      | _ => if wr then clear_entries clear wr tl else ((k, c) :: tl, false)
      end
  end.

Fixpoint clear (n : node) : node * bool :=
  match n with
  | Dir wr es => let (es', ok) := clear_entries clear wr es in (Dir wr es', ok)
  | _ => (n, true)
  end.

Definition is_root (q : Path) : bool :=
  match q with [] => true | _ => false end.

(** May the entry at [q] be removed from the directory it is in. *)
Definition parent_writable (fs : node) (q : Path) : bool :=
  match descend fs (removelast q) with
  | Found (Dir true _) => true
  | _ => false
  end.

(** [shutil.rmtree(path)]: the file system afterwards, and whether the
    call returned rather than raised.  It refuses a symbolic link, a
    regular file and a missing path.  A directory is emptied as far
    as the permissions allow and then removed from its parent; when
    something cannot be removed the call raises and what was removed
    until then stays removed.  The root directory has no parent to be
    removed from. *)
Definition rmtree (fs : node) (p : Path) : node * bool :=
  match locate (S MAXSYMLINKS) fs p with
  | Some (q, Dir wr es) =>
      let (emptied, ok) := clear (Dir wr es) in
      if ok && parent_writable fs q && negb (is_root q)
      then (remove_at fs q, true)
      else (replace_at fs q emptied, false)
  | _ => (fs, false)
  end.


(** ** Records, texts and events *)

Inductive json : Type :=
| JNull
| JBool (b : bool)
| JNum (literal : string)
| JStr (s : string)
| JArr (items : list json)
| JObj (members : list (string * json)).

(** One entry of the package list: [{'name': ..., 'version': ...}]. *)
Record package : Type := {
  name : json;
  version : json
}.

(** The dataclass [VirtualEnv].  [size_mb] is a Python float (binary64);
    it is kept here as the rational number that the float is. *)
Record VirtualEnv : Type := {
  path : Path;
  size_mb : Q;
  age_days : Z;
  is_broken : bool;
  packages : option (list package)
}.

(** The exceptions that leave a function of the program. *)
Inductive exn : Type :=
| MarkupError
| TypeError
| OSError
| OverflowError.

(** What the [try] block of [get_venv_packages] can raise: an
    [OSError] when the process cannot be started, [CalledProcessError],
    [JSONDecodeError], and the [TypeError] or [KeyError] of the list
    comprehension on a listing of another shape. *)
Inductive probe_error : Type :=
| NotStarted
| CalledProcessError (returncode : Z)
| JSONDecodeError (doc : string)
| BadListing (packages : json).

(** The texts the program shows, one constructor per format string,
    with what is put into the string.  [TotalStorage] carries the
    sizes whose float [sum] the text shows; [ProgressPath] is the
    column [[dim cyan]{task.fields[path]}] of the progress display. *)
Inductive line : Type :=
| WarnNoPython (venv_path : Path)
| ErrorPackageList (venv_path : Path) (e : probe_error)
| CountingDirectories
| WarnProcessing (p : Path) (e : exn)
| ScanComplete (found : nat)
| FailedToRemove (p : Path)
| ShowPath (p : Path)
| ShowSize (mb : Q)
| ShowAge (days : Z)
| ShowBroken
| ShowOk
| InstalledPackages
| ShowPackage (name version : json)
| RemovingBroken
| Done
| Failed
| NoneFound
| TotalVenvs (n : nat)
| BrokenVenvs (n : nat)
| TotalStorage (sizes : list Q)
| DryRunNote
| Scanning (root_dir : Path)
| LookingOlderThan (days : Z)
| ProgressPath (shown : string).

(** What the program does to the outside, in the order it does it. *)
Inductive event : Type :=
| Print (l : line)
| Stderr (l : line)
| Progress (shown : string)
| Probe (venv_path : Path)
| Spawn (cmd : list string)
| Rmtree (p : Path).

(** ** What the program gets from its host

    The platform, the local time zone, the [pip] subprocess, the JSON
    parser and the [rich] console are outside the program.  They are
    taken as given: [subprocess_run] is what running a command on the
    current file system yields, [json_loads] is [json.loads] with
    [None] for [JSONDecodeError], [datetime_now] is the naive local
    time [datetime.now()] reads at an instant, [fromtimestamp] is
    [datetime.fromtimestamp], which raises for timestamps outside its
    range, and [renders] tells whether [rich] can render a text as
    markup ([rich] raises [MarkupError] otherwise, as on a path that
    holds a closing tag with nothing to close).  Local times are whole
    microseconds, as [datetime] has them. *)

(** The outcome of [subprocess.run(cmd, capture_output=True, text=True)]
    before [check=True] is applied: the call raised (the process could
    not be started, its output could not be decoded), or the process
    ran and left a return code and its standard output. *)
Inductive completed : Type :=
| LaunchError
| Completed (returncode : Z) (stdout : string).

(** The outcome of [datetime.fromtimestamp]: a local time, a
    [ValueError] (year out of range), or another error
    ([OverflowError], [OSError]). *)
Inductive datetime_result : Type :=
| LocalTime (local : Z)
| RaisesValueError
| RaisesOverflowError.

Record Host : Type := {
  win32 : bool;
  drive : string;
  datetime_now : Z -> Z;
  fromtimestamp : Z -> datetime_result;
  subprocess_run : node -> list string -> completed;
  json_loads : string -> option json;
  renders : line -> bool
}.

(** [os.sep]. *)
Definition os_sep (h : Host) : ascii :=
  if win32 h then "\"%char else "/"%char.

(** What [str(path)] starts with before the first separator: the
    drive on Windows, nothing elsewhere. *)
Definition anchor (h : Host) : string :=
  if win32 h then drive h else EmptyString.

(** [str(path)]. *)
Definition str (h : Host) (p : Path) : string :=
  (anchor h ++ String (os_sep h) (join (os_sep h) p))%string.

(** The texts into which a path, a package name, a version or the
    message of an exception is put can fail to render; the others are
    constant up to numbers. *)
Definition printable (h : Host) (l : line) : bool :=
  match l with
  | WarnNoPython _ | ErrorPackageList _ _ | WarnProcessing _ _
  | ShowPath _ | ShowPackage _ _ | Scanning _ | ProgressPath _ => renders h l
  | _ => true
  end.

(** ** The state and the monad *)

(** The state the program runs in: the file system, the instant at
    which the clock is read (a run is short against a day, and the
    clock is taken to stand still during it), and the events so far,
    oldest first. *)
Record world : Type := {
  fs : node;
  now : Z;
  trace : list event
}.

Inductive outcome (A : Type) : Type :=
| Returned (a : A)
| Raised (e : exn).

Arguments Returned {A} a.
Arguments Raised {A} e.

(** A computation: from a state to what it returns or raises, and the
    state it leaves. *)
Definition M (A : Type) : Type := world -> outcome A * world.

Definition ret {A} (a : A) : M A := fun w => (Returned a, w).

Definition raise {A} (e : exn) : M A := fun w => (Raised e, w).

Definition bind {A B} (m : M A) (k : A -> M B) : M B :=
  fun w =>
    match m w with
    | (Returned a, w') => k a w'
    | (Raised e, w') => (Raised e, w')
    end.

(** [try: m except Exception as e: handler(e)]. *)
Definition try_catch {A} (m : M A) (handler : exn -> M A) : M A :=
  fun w =>
    match m w with
    | (Returned a, w') => (Returned a, w')
    | (Raised e, w') => handler e w'
    end.

Declare Scope monad_scope.
Delimit Scope monad_scope with monad.
Notation "x <- m ;; k" := (bind m (fun x => k))
  (at level 61, m at next level, right associativity) : monad_scope.
Notation "m ;; k" := (bind m (fun _ => k))
  (at level 61, right associativity) : monad_scope.
Local Open Scope monad_scope.

Definition get_fs : M node := fun w => (Returned (fs w), w).

Definition get_now : M Z := fun w => (Returned (now w), w).

Definition emit (e : event) : M unit :=
  fun w => (Returned tt, {| fs := fs w; now := now w; trace := trace w ++ [e] |}).

Definition set_fs (fs' : node) : M unit :=
  fun w => (Returned tt, {| fs := fs'; now := now w; trace := trace w |}).

Definition when (b : bool) (m : M unit) : M unit :=
  if b then m else ret tt.

(** A value, or the exception [e] when there is none. *)
Definition value_or {A} (e : exn) (o : option A) : M A :=
  match o with
  | Some a => ret a
  | None => raise e
  end.

(** [for x in xs: body(x)]. *)
Fixpoint for_each {A} (xs : list A) (body : A -> M unit) : M unit :=
  match xs with
  | [] => ret tt
  | x :: rest => body x ;; for_each rest body
  end.

(** ** [VenvScanner] *)

(** [for pkg in packages]: lists yield their items, dictionaries their
    keys, strings their characters; anything else is not iterable. *)
Definition iterate (j : json) : option (list json) :=
  match j with
  | JArr items => Some items
  | JObj members => Some (map (fun kv => JStr (fst kv)) members)
  | JStr s => Some (map (fun c => JStr (String c EmptyString)) (list_ascii_of_string s))
  | _ => None
  end.

Fixpoint lookup_member (key : string) (members : list (string * json)) : option json :=
  match members with
  | [] => None
  | (k, v) :: tl => if String.eqb k key then Some v else lookup_member key tl
  end.

(** [pkg[key]] for a string key: defined on dictionaries that have the key. *)
Definition subscript (pkg : json) (key : string) : option json :=
  match pkg with
  | JObj members => lookup_member key members
  | _ => None
  end.

(** The list comprehension of [get_venv_packages]; [None] when it raises. *)
Fixpoint package_dicts (items : list json) : option (list package) :=
  match items with
  | [] => Some []
  | pkg :: rest =>
      match subscript pkg "name", subscript pkg "version" with
      | Some n, Some v =>
          match package_dicts rest with
          | Some l => Some ({| name := n; version := v |} :: l)
          | None => None
          end
      | _, _ => None
      end
  end.

Definition day_us : Z := 86400 * 1000000.

(** The integer nearest to [n] that has at most 53 significant bits,
    ties going to the even one: what converting [n] to a float does. *)
Definition round53 (n : Z) : Z :=
  let a := Z.abs n in
  if a <=? 2 ^ 53 then n
  else
    let e := Z.log2 a - 52 in
    let q := a / 2 ^ e in
    let r := a mod 2 ^ e in
    let half := 2 ^ (e - 1) in
    let q' := if (half <? r) || ((r =? half) && Z.odd q) then q + 1 else q in
    Z.sgn n * (q' * 2 ^ e).

(** [a / b] of two integers where [b] is a power of two: the float
    nearest to the quotient. *)
Definition true_divide (a b : Z) : Q := (inject_Z (round53 a) / inject_Z b)%Q.

(** [sum(f.stat().st_size for f in files)], [None] if a [stat] raises. *)
Fixpoint sum_sizes (fs : node) (files : list Path) : option Z :=
  match files with
  | [] => Some 0
  | f :: rest =>
      match stat fs f, sum_sizes fs rest with
      | Some n, Some total => Some (size_of n + total)
      | _, _ => None
      end
  end.

(** [f.stat().st_mtime for f in files], [None] if a [stat] raises. *)
Fixpoint mtimes (fs : node) (files : list Path) : option (list Z) :=
  match files with
  | [] => Some []
  | f :: rest =>
      match stat fs f, mtimes fs rest with
      | Some n, Some l => Some (mtime_of n :: l)
      | _, _ => None
      end
  end.

(** [max] of a non-empty sequence. *)
Definition maximum (x : Z) (xs : list Z) : Z := fold_left Z.max xs x.

Section Scanner.

Variable host : Host.

(** The attribute [self.verbose]. *)
Variable verbose : bool.

(** [console.print]: the text appears, or [rich] raises. *)
Definition print (l : line) : M unit :=
  if printable host l then emit (Print l) else raise MarkupError.

Definition _get_python_path (fs : node) (venv_path : Path) : Path :=
  let python_path :=
    if win32 host then venv_path ++ ["Scripts"; "python.exe"]
    else venv_path ++ ["bin"; "python"] in
  if is_symlink fs python_path then resolve fs python_path else python_path.

Definition pip_list_cmd (python_path : Path) : list string :=
  [str host python_path; "-m"; "pip"; "list"; "--format"; "json"].

(** The [except] clause of [get_venv_packages]. *)
Definition probe_failed (venv_path : Path) (e : probe_error) : M (option (list package)) :=
  when verbose (print (ErrorPackageList venv_path e)) ;;
  ret None.

Definition get_venv_packages (venv_path : Path) : M (option (list package)) :=
  emit (Probe venv_path) ;;
  fs <- get_fs ;;
  let python_path := _get_python_path fs venv_path in
  if negb (exists_ fs python_path) then
    when verbose (print (WarnNoPython venv_path)) ;;
    ret None
  else
    let cmd := pip_list_cmd python_path in
    emit (Spawn cmd) ;;
    match subprocess_run host fs cmd with
    | LaunchError => probe_failed venv_path NotStarted
    | Completed returncode stdout =>
        if negb (returncode =? 0) then probe_failed venv_path (CalledProcessError returncode)
        else
          match json_loads host stdout with
          | None => probe_failed venv_path (JSONDecodeError stdout)
          | Some packages =>
              match iterate packages with
              | None => probe_failed venv_path (BadListing packages)
              | Some items =>
                  match package_dicts items with
                  | None => probe_failed venv_path (BadListing packages)
                  | Some l => ret (Some l)
                  end
              end
          end
    end.

Definition venv_markers : list Path :=
  [["pyvenv.cfg"]; ["bin"; "python"]; ["Scripts"; "python.exe"]; ["Lib"; "site-packages"]].

Definition is_virtualenv (fs : node) (p : Path) : bool :=
  existsb (fun marker => exists_ fs (p ++ marker)) venv_markers.

(** [get_dir_size]; [None] when an exception leaves it. *)
Definition get_dir_size (fs : node) (p : Path) : option Q :=
  match sum_sizes fs (filter (is_file fs) (rglob fs p)) with
  | Some total_bytes => Some (true_divide total_bytes (1024 * 1024))
  | None => None
  end.

(** [get_dir_age_days] at the instant [now].  The [ValueError] that
    [max] of no file at all raises, and the one [fromtimestamp] raises
    for a year out of range, give 0; [None] when another exception
    leaves the function. *)
Definition get_dir_age_days (fs : node) (now : Z) (p : Path) : option Z :=
  match mtimes fs (filter (is_file fs) (rglob fs p)) with
  | Some [] => Some 0
  | Some (m :: ms) =>
      let most_recent := maximum m ms in
      match fromtimestamp host most_recent with
      | LocalTime modified =>
          let age := datetime_now host now - modified in
          Some (age / day_us)
      | RaisesValueError => Some 0
      | RaisesOverflowError => None
      end
  | None => None
  end.

(** [older_than_days is None or age_days > older_than_days]. *)
Definition selected (older_than_days : option Z) (age_days : Z) : bool :=
  match older_than_days with
  | None => true
  | Some t => t <? age_days
  end.

(** The [except Exception] clause inside the scanning loop. *)
Definition skip_candidate (p : Path) (e : exn) : M (option VirtualEnv) :=
  when verbose (print (WarnProcessing p e)) ;;
  ret None.

(** The [try] block inside the scanning loop: the record to append,
    if any. *)
Definition examine (older_than_days : option Z) (fs : node) (p : Path)
  : M (option VirtualEnv) :=
  size_mb <- value_or OSError (get_dir_size fs p) ;;
  t <- get_now ;;
  age_days <- value_or OverflowError (get_dir_age_days fs t p) ;;
  if selected older_than_days age_days then
    packages <- get_venv_packages p ;;
    ret (Some {| path := p;
                 size_mb := size_mb;
                 age_days := age_days;
                 is_broken := match packages with None => true | Some _ => false end;
                 packages := packages |})
  else ret None.

(** The body of the scanning loop after the progress update. *)
Definition scan_candidate (older_than_days : option Z) (p : Path) : M (option VirtualEnv) :=
  fs <- get_fs ;;
  if is_dir fs p && is_virtualenv fs p then
    try_catch (examine older_than_days fs p) (skip_candidate p)
  else ret None.

(** The text the progress display is given for an entry. *)
Definition shown (p : Path) : string :=
  trim_path (os_sep host) (str host p) default_max_length.

Fixpoint scan_loop (older_than_days : option Z) (dirs_to_scan : list Path)
         (venvs : list VirtualEnv) : M (list VirtualEnv) :=
  match dirs_to_scan with
  | [] => ret venvs
  | p :: rest =>
      emit (Progress (shown p)) ;;
      r <- scan_candidate older_than_days p ;;
      scan_loop older_than_days rest
                (match r with Some venv => venvs ++ [venv] | None => venvs end)
  end.

(** Leaving the [with Progress] block stops the live display, which
    draws it one last time in the thread of the program: the column
    [TextColumn("[dim cyan]{task.fields[path]}")] renders as markup the
    text of the entry the walk ended with, or the empty text the task
    was created with.  (The drawings in between are made by the
    refresh thread, where a failure does not reach the program, and
    [progress.update] draws nothing.) *)
Definition leave_progress (dirs_to_scan : list Path) : M unit :=
  if printable host (ProgressPath (last (map shown dirs_to_scan) EmptyString))
  then ret tt else raise MarkupError.

(** [scan_virtualenvs].  The only exception that leaves the loop is
    the [MarkupError] of the warning in its [except] clause, so that
    leaving the block after it raises as the loop did. *)
Definition scan_virtualenvs (root_path : Path) (older_than_days : option Z)
  : M (list VirtualEnv) :=
  fs <- get_fs ;;
  let root := resolve fs root_path in
  when verbose (print CountingDirectories) ;;
  let dirs_to_scan := rglob fs root in
  venvs <- scan_loop older_than_days dirs_to_scan [] ;;
  leave_progress dirs_to_scan ;;
  when verbose (print (ScanComplete (List.length venvs))) ;;
  ret venvs.

(** [remove_virtualenv]; the failure is reported with the built-in
    [print], which renders nothing. *)
Definition remove_virtualenv (p : Path) : M bool :=
  emit (Rmtree p) ;;
  fs <- get_fs ;;
  let (fs', returned) := rmtree fs p in
  set_fs fs' ;;
  if returned then ret true
  else emit (Stderr (FailedToRemove p)) ;; ret false.

(** ** [VenvManager] and the command line *)

(** The namespace [parse_arguments] returns. *)
Record Args : Type := {
  root_dir : Path;
  arg_verbose : bool;
  list_packages : bool;
  older_than : option Z;
  remove : bool;
  remove_broken : bool
}.

(** Python's truth value of [args.older_than]. *)
Definition truthy (o : option Z) : bool :=
  match o with
  | None => false
  | Some z => negb (z =? 0)
  end.

Definition display_venv_info (venv : VirtualEnv) (show_packages : bool) : M unit :=
  print (ShowPath (path venv)) ;;
  print (ShowSize (size_mb venv)) ;;
  print (ShowAge (age_days venv)) ;;
  if is_broken venv then print ShowBroken
  else
    print ShowOk ;;
    match packages venv with
    | Some (pkg :: pkgs) =>
        when show_packages
          (print InstalledPackages ;;
           for_each (pkg :: pkgs) (fun pkg => print (ShowPackage (name pkg) (version pkg))))
    | _ => ret tt
    end.

Definition broken_count (venvs : list VirtualEnv) : nat :=
  List.length (filter is_broken venvs).

(** The body of the loop over the records in [process_virtualenvs]. *)
Definition process_one (args : Args) (venv : VirtualEnv) : M unit :=
  display_venv_info venv (list_packages args) ;;
  if is_broken venv && remove_broken args then
    print RemovingBroken ;;
    ok <- remove_virtualenv (path venv) ;;
    if ok then print Done else print Failed
  else ret tt.

(** The [try] block of [process_virtualenvs]. *)
Definition report (root_dir : Path) (args : Args) : M unit :=
  venvs <- scan_virtualenvs root_dir (older_than args) ;;
  match venvs with
  | [] => print NoneFound
  | _ =>
      for_each venvs (process_one args) ;;
      print (TotalVenvs (List.length venvs)) ;;
      print (BrokenVenvs (broken_count venvs)) ;;
      print (TotalStorage (map size_mb venvs)) ;;
      when (truthy (older_than args) && negb (remove args)) (print DryRunNote)
  end.

(** [process_virtualenvs].  Its [except] clause calls [console.print]
    with the keyword [file], which that method does not have: the call
    raises [TypeError] before anything is printed, and the lines after
    it ([traceback.print_exc], [sys.exit(1)]) are not reached. *)
Definition process_virtualenvs (root_dir : Path) (args : Args) : M unit :=
  try_catch (report root_dir args) (fun _ => raise TypeError).

End Scanner.

(** [main]: the scanner is built with [args.verbose]. *)
Definition main (host : Host) (args : Args) : M unit :=
  when (arg_verbose args)
    (print host (Scanning (root_dir args)) ;;
     match older_than args with
     | Some days => when (truthy (Some days)) (print host (LookingOlderThan days))
     | None => ret tt
     end) ;;
  process_virtualenvs host (arg_verbose args) (root_dir args) args.

(** What was removed, and what was printed, in a trace. *)
Definition removals (tr : list event) : list Path :=
  flat_map (fun e => match e with Rmtree p => [p] | _ => [] end) tr.


Definition spawns (tr : list event) : list (list string) :=
  flat_map (fun e => match e with Spawn c => [c] | _ => [] end) tr.


Definition is_dry_run_note (e : event) : bool :=
  match e with Print DryRunNote => true | _ => false end.

Definition start (fs : node) (now : Z) : world :=
  {| fs := fs; now := now; trace := [] |}.

(** ** Notions used in the statements *)





(** A computation that only reads the file system and the clock and
    appends to the trace: run in any world, it gives the outcome and
    the events it gives in a world with an empty trace. *)
Definition logs {A} (m : M A) : Prop :=
  forall w,
    m w = (fst (m (start (fs w) (now w))),
           {| fs := fs w; now := now w;
              trace := trace w ++ trace (snd (m (start (fs w) (now w)))) |}).

Definition result_of {A} (m : M A) (fs : node) (now : Z) : outcome A :=
  fst (m (start fs now)).

Definition events_of {A} (m : M A) (fs : node) (now : Z) : list event :=
  trace (snd (m (start fs now))).


(** The bytes of the regular files among [files], as [st] sees them. *)
Fixpoint file_bytes (st : Path -> option node) (files : list Path) : Z :=
  match files with
  | [] => 0
  | f :: rest =>
      match st f with
      | Some (File s _) => s + file_bytes st rest
      | _ => file_bytes st rest
      end
  end.

(** The modification times of the regular files among [files]. *)
Fixpoint file_mtimes (st : Path -> option node) (files : list Path) : list Z :=
  match files with
  | [] => []
  | f :: rest =>
      match st f with
      | Some (File _ m) => m :: file_mtimes st rest
      | _ => file_mtimes st rest
      end
  end.



(** The modification times of the regular files beneath a node at any
    depth, in the words of the specification. *)
Fixpoint regular_mtimes (n : node) : list Z :=
  match n with
  | File _ m => [m]
  | Dir _ es => flat_map (fun '(_, c) => regular_mtimes c) es
  | Symlink _ => []
  end.


(** What [get_venv_packages] returns when it returns. *)
Definition probe_value (host : Host) (fs : node) (venv_path : Path) : option (list package) :=
  let python_path := _get_python_path host fs venv_path in
  if negb (exists_ fs python_path) then None
  else
    match subprocess_run host fs (pip_list_cmd host python_path) with
    | LaunchError => None
    | Completed returncode stdout =>
        if negb (returncode =? 0) then None
        else
          match json_loads host stdout with
          | None => None
          | Some packages =>
              match iterate packages with
              | None => None
              | Some items => package_dicts items
              end
          end
    end.

(** The record, if any, that a scan whose diagnostics cannot raise
    makes of an entry of the walk. *)
Definition candidate_value (host : Host) (older_than_days : option Z) (fs : node) (now : Z)
           (p : Path) : option VirtualEnv :=
  if is_dir fs p && is_virtualenv fs p then
    match get_dir_size fs p, get_dir_age_days host fs now p with
    | Some size_mb, Some age_days =>
        if selected older_than_days age_days then
          Some {| path := p;
                  size_mb := size_mb;
                  age_days := age_days;
                  is_broken := match probe_value host fs p with None => true | Some _ => false end;
                  packages := probe_value host fs p |}
        else None
    | _, _ => None
    end
  else None.


(** A computation whose events, whatever else it does, all satisfy [P]. *)
Definition appends {A} (P : event -> Prop) (m : M A) : Prop :=
  forall w, exists evs, trace (snd (m w)) = trace w ++ evs /\ Forall P evs.

(** The events one candidate of the scan can cause. *)
Definition candidate_event (e : event) : bool :=
  match e with
  | Probe _ | Spawn _ => true
  | Print (WarnNoPython _) | Print (ErrorPackageList _ _) | Print (WarnProcessing _ _) => true
  | _ => false
  end.

(** The events a scan can cause. *)
Definition scan_event (e : event) : bool :=
  match e with
  | Progress _ => true
  | Print CountingDirectories | Print (ScanComplete _) => true
  | _ => candidate_event e
  end.

(** The events [display_venv_info] can cause. *)
Definition display_event (e : event) : bool :=
  match e with
  | Print (ShowPath _) | Print (ShowSize _) | Print (ShowAge _)
  | Print ShowBroken | Print ShowOk | Print InstalledPackages | Print (ShowPackage _ _) => true
  | _ => false
  end.

(** The events the loop over the records can cause. *)
Definition report_event (e : event) : bool :=
  match e with
  | Rmtree _ | Stderr (FailedToRemove _) => true
  | Print RemovingBroken | Print Done | Print Failed => true
  | _ => display_event e
  end.

(** [a] is a leading piece of [b]. *)
Fixpoint is_prefix (a b : Path) : bool :=
  match a, b with
  | [], _ => true
  | x :: a', y :: b' => String.eqb x y && is_prefix a' b'
  | _ :: _, [] => false
  end.


(** The path [_get_python_path] starts from. *)
Definition platform_python (host : Host) (venv_path : Path) : Path :=
  if win32 host then venv_path ++ ["Scripts"; "python.exe"]
  else venv_path ++ ["bin"; "python"].

(** An item of the package listing and its dictionary agree. *)
Definition lists_package (item : json) (pkg : package) : Prop :=
  subscript item "name" = Some (name pkg) /\ subscript item "version" = Some (version pkg).


(** The lines [display_venv_info] prints for a record all render. *)
Definition displayable (host : Host) (v : VirtualEnv) : Prop :=
  renders host (ShowPath (path v)) = true
  /\ forall l pkg, packages v = Some l -> In pkg l ->
                   renders host (ShowPackage (name pkg) (version pkg)) = true.

(** ** Concrete inputs used by the examples below *)

(** A relative path whose first segment is longer than any budget a
    limit of 10 leaves. *)
Definition long_first_segment : string := "aaaaaaaaaaaaaaaaaaaa/b/c/d".

(** An absolute path of 42 characters and its components. *)
Definition deep_venv : Path := ["home"; "user"; "projects"; "alpha"; "beta"; "gamma"; ".venv"].

Definition deep_venv_str : string := "/home/user/projects/alpha/beta/gamma/.venv".

(** A name that holds a closing tag of [rich] markup, and a console
    that cannot render a text into which a path with such a name is
    put. *)
Definition markup_name : string := "a[/]b".

Definition plain (p : Path) : bool := negb (existsb (String.eqb markup_name) p).

Definition rich_renders (l : line) : bool :=
  match l with
  | WarnNoPython p | ErrorPackageList p _ | WarnProcessing p _ | ShowPath p | Scanning p => plain p
  | _ => true
  end.

(** A host in a zone one hour east of UTC the year round, on which
    [pip list] prints one package. *)
Definition hour_us : Z := 3600 * 1000000.

Definition pip_json : json :=
  JArr [JObj [("name", JStr "pip"); ("version", JStr "24.0")]].

Definition posix_host : Host := {|
  win32 := false;
  drive := EmptyString;
  datetime_now := fun t => t + hour_us;
  fromtimestamp := fun t => LocalTime (t + hour_us);
  subprocess_run := fun _ _ => Completed 0 "[{'name': 'pip', 'version': '24.0'}]";
  json_loads := fun _ => Some pip_json;
  renders := fun _ => true
|}.

(** The same host with a console that fails on closing tags. *)
Definition rich_host : Host := {|
  win32 := false;
  drive := EmptyString;
  datetime_now := fun t => t + hour_us;
  fromtimestamp := fun t => LocalTime (t + hour_us);
  subprocess_run := fun _ _ => Completed 0 "[{'name': 'pip', 'version': '24.0'}]";
  json_loads := fun _ => Some pip_json;
  renders := rich_renders
|}.




(** A host whose zone is two hours east of UTC until day 95 and one
    hour east from then on (summer time ends). *)
Definition summer_end : Z := 95 * day_us.

Definition zone_offset (t : Z) : Z :=
  if t <? summer_end then 2 * hour_us else hour_us.

Definition dst_host : Host := {|
  win32 := false;
  drive := EmptyString;
  datetime_now := fun t => t + zone_offset t;
  fromtimestamp := fun t => LocalTime (t + zone_offset t);
  subprocess_run := fun _ _ => Completed 0 "[{'name': 'pip', 'version': '24.0'}]";
  json_loads := fun _ => Some pip_json;
  renders := fun _ => true
|}.

(** A host whose [datetime] ends with the year 9999, taken here as
    three million days after the epoch. *)
Definition datetime_max : Z := 3000000 * day_us.

Definition bounded_host : Host := {|
  win32 := false;
  drive := EmptyString;
  datetime_now := fun t => t + hour_us;
  fromtimestamp := fun t => if datetime_max <? t then RaisesValueError
                            else LocalTime (t + hour_us);
  subprocess_run := fun _ _ => Completed 0 "[{'name': 'pip', 'version': '24.0'}]";
  json_loads := fun _ => Some pip_json;
  renders := fun _ => true
|}.

(** A Windows host with the drive [C:]. *)
Definition windows_host : Host := {|
  win32 := true;
  drive := "C:";
  datetime_now := fun t => t + hour_us;
  fromtimestamp := fun t => LocalTime (t + hour_us);
  subprocess_run := fun _ _ => Completed 0 "[{'name': 'pip', 'version': '24.0'}]";
  json_loads := fun _ => Some pip_json;
  renders := fun _ => true
|}.

(** [/home/u] holds a healthy environment [old] whose newest file is
    40 days old at [scan_time], an environment [fresh] without an
    interpreter whose only file is 2 days old, and a directory [docs]
    that is no environment; [/srv/empty] holds nothing.  Every
    directory is writable. *)
Definition scan_time : Z := 100 * day_us.

Definition old_entries : list (string * node) :=
  [("pyvenv.cfg", File 1048576 (60 * day_us));
   ("bin", Dir true [("python", Symlink ["usr"; "bin"; "python3"])]);
   ("lib", Dir true [("site.py", File 1048576 (50 * day_us))])].

Definition fresh_entries : list (string * node) :=
  [("pyvenv.cfg", File 2097152 (98 * day_us))].

Definition fresh_dir : node := Dir true fresh_entries.

Definition sample_fs : node :=
  Dir true
      [("home",
        Dir true
            [("u",
              Dir true
                  [("old", Dir true old_entries);
                   ("fresh", fresh_dir);
                   ("docs", Dir true [("readme.txt", File 10 (99 * day_us))])])]);
       ("usr", Dir true [("bin", Dir true [("python3", File 4194304 (10 * day_us))])]);
       ("srv", Dir true [("empty", Dir true [])])].

Definition empty_dir : Path := ["srv"; "empty"].
Definition old_venv : Path := ["home"; "u"; "old"].
Definition fresh_venv : Path := ["home"; "u"; "fresh"].

(** [/w] holds an environment without an interpreter whose name
    holds a closing tag. *)
Definition markup_venv : Path := ["w"; markup_name].

Definition markup_fs : node :=
  Dir true [("w", Dir true [(markup_name,
                             Dir true [("pyvenv.cfg", File 10 (60 * day_us))])])].

(** [/data/locked] is an environment in a directory from which
    nothing may be removed; [/data/open] is an environment without
    such a restriction, and [/data/alias] is a link to it. *)
Definition locked_entries : list (string * node) :=
  [("pyvenv.cfg", File 10 (60 * day_us))].

Definition locked_fs : node :=
  Dir true [("data", Dir true [("locked", Dir false locked_entries);
                               ("open", Dir true locked_entries);
                               ("alias", Symlink ["data"; "open"])])].

Definition locked_venv : Path := ["data"; "locked"].
Definition open_venv : Path := ["data"; "open"].

(** [/d/mixed] holds a regular file 30 days old at [scan_time] and a
    link to a file outside that is 1 day old; [/d/links] holds only a
    link to a file 7 days old; [/d/summer] holds a file 10 days old,
    written before summer time ended; [/d/future] holds a file dated
    after the year 9999. *)
Definition aged_fs : node :=
  Dir true
      [("d",
        Dir true
            [("mixed", Dir true [("pyvenv.cfg", File 10 (70 * day_us));
                                 ("latest", Symlink ["out"; "new.txt"])]);
             ("links", Dir true [("pyvenv.cfg", Symlink ["out"; "week.txt"])]);
             ("summer", Dir true [("pyvenv.cfg", File 10 (90 * day_us))]);
             ("future", Dir true [("pyvenv.cfg", File 10 (3000100 * day_us))])]);
       ("out", Dir true [("new.txt", File 10 (99 * day_us));
                         ("week.txt", File 10 (93 * day_us))])].



(** [--older-than 30] without [--remove], with [--remove], and
    [--older-than 0] without [--remove]. *)
Definition report_args (root : Path) : Args := {|
  root_dir := root;
  arg_verbose := false;
  list_packages := false;
  older_than := Some 30;
  remove := false;
  remove_broken := false
|}.

Definition remove_args (root : Path) : Args := {|
  root_dir := root;
  arg_verbose := false;
  list_packages := false;
  older_than := Some 30;
  remove := true;
  remove_broken := false
|}.

Definition zero_args (root : Path) : Args := {|
  root_dir := root;
  arg_verbose := false;
  list_packages := false;
  older_than := Some 0;
  remove := false;
  remove_broken := false
|}.

(** [--remove-broken] alone. *)
Definition purge_args (root : Path) : Args := {|
  root_dir := root;
  arg_verbose := false;
  list_packages := true;
  older_than := None;
  remove := false;
  remove_broken := true
|}.

(** The records a scan of [/home] at [scan_time] gives on [posix_host]. *)
Definition old_record : VirtualEnv := {|
  path := old_venv;
  size_mb := true_divide 6291456 (1024 * 1024);
  age_days := 40;
  is_broken := false;
  packages := Some [{| name := JStr "pip"; version := JStr "24.0" |}]
|}.

Definition fresh_record : VirtualEnv := {|
  path := fresh_venv;
  size_mb := true_divide 2097152 (1024 * 1024);
  age_days := 2;
  is_broken := true;
  packages := None
|}.

(** * Properties *)

#[local] Arguments stat : simpl never.
#[local] Arguments lstat : simpl never.
#[local] Arguments resolve : simpl never.

(** ** [trim_path] *)

Lemma len_append (a b : string) : len (a ++ b)%string = len a + len b.
Proof.
  unfold len. induction a as [|c a IH]; cbn [append String.length].
  - lia.
  - rewrite !Nat2Z.inj_succ. lia.
Qed.

Lemma len_String (c : ascii) (s : string) : len (String c s) = 1 + len s.
Proof. unfold len. simpl String.length. lia. Qed.

Lemma len_nonneg (s : string) : 0 <= len s.
Proof. unfold len. lia. Qed.

(** A path that fits is returned as it is. *)
Lemma trim_path_fits (sep : ascii) (path_str : string) (max_length : Z) :
  len path_str <= max_length -> trim_path sep path_str max_length = path_str.
Proof.
  intros H. unfold trim_path.
  destruct (Z.leb_spec (len path_str) max_length); [reflexivity | lia].
Qed.

(** When the last two segments and the marker leave no room, a longer
    path becomes the marker and the last segment. *)
Lemma trim_path_fallback (sep : ascii) (path_str : string) (max_length : Z) :
  max_length < len path_str ->
  available_start sep path_str max_length <= 0 ->
  trim_path sep path_str max_length
  = (ellipsis ++ String sep (last_part (end_parts sep path_str)))%string.
Proof.
  intros Hlong Hroom. unfold trim_path, available_start, end_len, end_parts in *.
  destruct (Z.leb_spec (len path_str) max_length); [lia |].
  match goal with |- (if ?c then _ else _) = _ => destruct c eqn:E end.
  - reflexivity.
  - apply Z.leb_gt in E. lia.
Qed.

(** Otherwise the output ends with the last two segments as they were. *)
Lemma trim_path_keeps_end (sep : ascii) (path_str : string) (max_length : Z) :
  max_length < len path_str ->
  0 < available_start sep path_str max_length ->
  exists kept,
    trim_path sep path_str max_length
    = (kept ++ String sep (ellipsis ++ String sep (join sep (end_parts sep path_str))))%string.
Proof.
  intros Hlong Hroom. unfold trim_path, available_start, end_len, end_parts in *.
  destruct (Z.leb_spec (len path_str) max_length); [lia |].
  match goal with |- exists _, (if ?c then _ else _) = _ => destruct c eqn:E end.
  - apply Z.leb_le in E. lia.
  - eexists. reflexivity.
Qed.

Lemma pack_within (sep : ascii) (budget : Z) (parts : list string) :
  forall start, len start <= budget -> len (pack sep budget start parts) <= budget.
Proof.
  induction parts as [|part rest IH]; intros start H; simpl.
  - exact H.
  - destruct (Z.leb_spec (len (start ++ String sep part)%string) budget).
    + apply IH. assumption.
    + exact H.
Qed.

(** The output stays within the limit when the first segment is within
    the budget for the kept prefix. *)
Lemma trim_path_within_limit (sep : ascii) (path_str : string) (max_length : Z) :
  max_length < len path_str ->
  0 < available_start sep path_str max_length ->
  len (first_part (split sep path_str)) <= available_start sep path_str max_length ->
  len (trim_path sep path_str max_length) <= max_length.
Proof.
  intros Hlong Hroom Hfirst. unfold trim_path, available_start, end_len, end_parts in *.
  destruct (Z.leb_spec (len path_str) max_length); [lia |].
  match goal with |- len (if ?c then _ else _) <= _ => destruct c eqn:E end.
  - apply Z.leb_le in E. lia.
  - rewrite len_append, len_String, len_append, len_String.
    pose proof (pack_within sep _ (middle (split sep path_str)) _ Hfirst) as Hp.
    unfold ellipsis. change (len "...") with 3. lia.
Qed.

(** C3 (the code departs from the claim): [trim_path] of a path whose
    first segment has 20 characters, with limit 10.  The path is longer
    than the limit and the last two segments with the marker leave a
    budget of 2, so this is not the fallback case; the first segment is
    kept whole all the same, and the output has 28 characters. *)
Theorem trim_path_exceeds_limit :
  trim_path posix_sep long_first_segment 10 = "aaaaaaaaaaaaaaaaaaaa/.../c/d"
  /\ 10 < len long_first_segment
  /\ available_start posix_sep long_first_segment 10 = 2
  /\ len (trim_path posix_sep long_first_segment 10) = 28.
Proof. repeat split. Qed.

(** ** The file system *)


Lemma follow_S (fuel : nat) (root : node) (p : Path) :
  follow (S fuel) root p = continue fuel root (descend root p).
Proof.
  simpl. destruct (descend root p) as [[sz mt|wr es|t]|q|]; reflexivity.
Qed.












(** ** [get_dir_size] *)





(** ** [is_virtualenv] *)

(** C7: [is_virtualenv] holds of a directory exactly when one of the
    four markers exists beneath it: [pyvenv.cfg], [bin/python],
    [Scripts/python.exe] or [Lib/site-packages].  One marker is
    enough, and with none of them the answer is false. *)
Theorem is_virtualenv_iff_some_marker (fs : node) (p : Path) :
  is_virtualenv fs p = true <->
  exists_ fs (p ++ ["pyvenv.cfg"]) = true
  \/ exists_ fs (p ++ ["bin"; "python"]) = true
  \/ exists_ fs (p ++ ["Scripts"; "python.exe"]) = true
  \/ exists_ fs (p ++ ["Lib"; "site-packages"]) = true.
Proof.
  unfold is_virtualenv, venv_markers. cbn [existsb].
  rewrite !orb_true_iff. intuition discriminate.
Qed.
(** ** The monad *)

Lemma bind_ret {A B} (a : A) (k : A -> M B) (w : world) : bind (ret a) k w = k a w.
Proof. reflexivity. Qed.

Lemma bind_raise {A B} (e : exn) (k : A -> M B) (w : world) :
  bind (raise e) k w = (Raised e, w).
Proof. reflexivity. Qed.

Lemma bind_emit {B} (e : event) (k : unit -> M B) (w : world) :
  bind (emit e) k w = k tt {| fs := fs w; now := now w; trace := trace w ++ [e] |}.
Proof. reflexivity. Qed.

Lemma bind_get_fs {B} (k : node -> M B) (w : world) : bind get_fs k w = k (fs w) w.
Proof. reflexivity. Qed.

Lemma bind_get_now {B} (k : Z -> M B) (w : world) : bind get_now k w = k (now w) w.
Proof. reflexivity. Qed.

Lemma bind_set_fs {B} (d : node) (k : unit -> M B) (w : world) :
  bind (set_fs d) k w = k tt {| fs := d; now := now w; trace := trace w |}.
Proof. reflexivity. Qed.

(** [console.print] of a text that renders, and of one that does not. *)
Lemma print_renders (host : Host) (l : line) (w : world) :
  printable host l = true ->
  print host l w = (Returned tt, {| fs := fs w; now := now w; trace := trace w ++ [Print l] |}).
Proof. unfold print. intros ->. reflexivity. Qed.

Lemma print_fails (host : Host) (l : line) (w : world) :
  printable host l = false -> print host l w = (Raised MarkupError, w).
Proof. unfold print. intros ->. reflexivity. Qed.

(** ** [get_venv_packages] *)

Lemma spawns_app (a b : list event) : spawns (a ++ b) = spawns a ++ spawns b.
Proof. unfold spawns. apply flat_map_app. Qed.


Lemma removals_app (a b : list event) : removals (a ++ b) = removals a ++ removals b.
Proof. unfold removals. apply flat_map_app. Qed.


Lemma probe_failed_returned (host : Host) (verbose : bool) (venv_path : Path) (e : probe_error)
      (w : world) (r : option (list package)) :
  fst (probe_failed host verbose venv_path e w) = Returned r -> r = None.
Proof.
  unfold probe_failed, when, print, printable, bind, emit, ret, raise.
  destruct verbose; [destruct (renders host (ErrorPackageList venv_path e)) |];
    cbn [fst]; congruence.
Qed.

Lemma probe_failed_spawns (host : Host) (verbose : bool) (venv_path : Path) (e : probe_error)
      (w : world) :
  spawns (trace (snd (probe_failed host verbose venv_path e w))) = spawns (trace w).
Proof.
  unfold probe_failed, when, print, printable, bind, emit, ret, raise.
  destruct verbose; [destruct (renders host (ErrorPackageList venv_path e)) |];
    cbn [snd trace]; rewrite ?spawns_app; cbn [spawns flat_map app]; rewrite ?app_nil_r;
    reflexivity.
Qed.




(** ** Computations that only log *)

Section Logging.

Context {A B : Type}.

Lemma logs_ret (a : A) : logs (ret a).
Proof. intros [f n t]. unfold ret, start. cbn. rewrite app_nil_r. reflexivity. Qed.

Lemma logs_raise (e : exn) : logs (@raise A e).
Proof. intros [f n t]. unfold raise, start. cbn. rewrite app_nil_r. reflexivity. Qed.


Lemma logs_bind (m : M A) (k : A -> M B) :
  logs m -> (forall a, logs (k a)) -> logs (bind m k).
Proof.
  intros Hm Hk w. unfold bind.
  pose proof (Hm (start (fs w) (now w))) as H0. cbn [start fs now trace app] in H0.
  pose proof (Hm w) as H1.
  destruct (m (start (fs w) (now w))) as [r [f1 n1 t1]] eqn:E.
  cbn [fst snd fs now trace] in *. injection H0 as Hf Hn. subst f1 n1.
  rewrite H1. destruct r as [a | e].
  - rewrite (Hk a). cbn [fs now trace start].
    pose proof (Hk a {| fs := fs w; now := now w; trace := t1 |}) as H2.
    cbn [fs now trace start] in H2. rewrite H2. cbn [fst snd trace].
    rewrite app_assoc. reflexivity.
  - reflexivity.
Qed.

Lemma logs_fs (m : M A) (w : world) : logs m -> fs (snd (m w)) = fs w.
Proof. intros H. rewrite (H w). reflexivity. Qed.

Lemma logs_now (m : M A) (w : world) : logs m -> now (snd (m w)) = now w.
Proof. intros H. rewrite (H w). reflexivity. Qed.

Lemma logs_result (m : M A) (w : world) :
  logs m -> fst (m w) = result_of m (fs w) (now w).
Proof. intros H. rewrite (H w). reflexivity. Qed.

Lemma logs_trace (m : M A) (w : world) :
  logs m -> trace (snd (m w)) = trace w ++ events_of m (fs w) (now w).
Proof. intros H. rewrite (H w). reflexivity. Qed.

End Logging.

Lemma logs_try_catch {A} (m : M A) (handler : exn -> M A) :
  logs m -> (forall e, logs (handler e)) -> logs (try_catch m handler).
Proof.
  intros Hm Hk w. unfold try_catch.
  pose proof (Hm (start (fs w) (now w))) as H0. cbn [start fs now trace app] in H0.
  pose proof (Hm w) as H1.
  destruct (m (start (fs w) (now w))) as [r [f1 n1 t1]] eqn:E.
  cbn [fst snd fs now trace] in *. injection H0 as Hf Hn. subst f1 n1.
  rewrite H1. destruct r as [a | e].
  - reflexivity.
  - rewrite (Hk e). cbn [fs now trace start].
    pose proof (Hk e {| fs := fs w; now := now w; trace := t1 |}) as H2.
    cbn [fs now trace start] in H2. rewrite H2. cbn [fst snd trace].
    rewrite app_assoc. reflexivity.
Qed.

Lemma logs_emit (e : event) : logs (emit e).
Proof. intros [f n t]. reflexivity. Qed.

Lemma logs_get_fs : logs get_fs.
Proof. intros [f n t]. unfold get_fs, start. cbn. rewrite app_nil_r. reflexivity. Qed.

Lemma logs_get_now : logs get_now.
Proof. intros [f n t]. unfold get_now, start. cbn. rewrite app_nil_r. reflexivity. Qed.

Lemma logs_print (host : Host) (l : line) : logs (print host l).
Proof. unfold print. destruct (printable host l); [apply logs_emit | apply logs_raise]. Qed.

Lemma logs_when (b : bool) (m : M unit) : logs m -> logs (when b m).
Proof. intros H. destruct b; [exact H | apply logs_ret]. Qed.

Lemma logs_value_or {A} (e : exn) (o : option A) : logs (value_or e o).
Proof. destruct o; [apply logs_ret | apply logs_raise]. Qed.

Lemma logs_for_each {A} (body : A -> M unit) (xs : list A) :
  (forall x, logs (body x)) -> logs (for_each xs body).
Proof.
  intros H. induction xs as [|x rest IH]; simpl.
  - apply logs_ret.
  - apply logs_bind; [apply H | intros _; exact IH].
Qed.

Create HintDb logs.

#[local] Hint Resolve logs_ret logs_raise logs_emit logs_get_fs logs_get_now logs_print
  logs_value_or logs_when : logs.

(** Goes through a computation built from [bind], tests and matches. *)
Ltac logs_step :=
  match goal with
  | |- logs (bind _ _) => apply logs_bind; [| intros ?]
  | |- logs (try_catch _ _) => apply logs_try_catch; [| intros ?]
  | |- logs (when _ _) => apply logs_when
  | |- logs (print _ _) => apply logs_print
  | |- logs (value_or _ _) => apply logs_value_or
  | |- logs (if ?c then _ else _) => destruct c
  | |- logs (match ?x with _ => _ end) => destruct x
  | |- logs _ => solve [auto with logs]
  end.

(** ** Computations whose events are all of one kind *)

Section Appending.

Context {A B : Type}.
Variable P : event -> Prop.

Lemma appends_ret (a : A) : appends P (ret a).
Proof. intros w. exists []. rewrite app_nil_r. split; [reflexivity | constructor]. Qed.

Lemma appends_raise (e : exn) : appends P (@raise A e).
Proof. intros w. exists []. rewrite app_nil_r. split; [reflexivity | constructor]. Qed.

Lemma appends_bind (m : M A) (k : A -> M B) :
  appends P m -> (forall a, appends P (k a)) -> appends P (bind m k).
Proof.
  intros Hm Hk w. unfold bind.
  destruct (Hm w) as (e1 & H1 & F1).
  destruct (m w) as [[a | e] w1]; cbn [snd] in H1.
  - destruct (Hk a w1) as (e2 & H2 & F2).
    exists (e1 ++ e2). rewrite H2, H1, app_assoc. split; [reflexivity |].
    apply Forall_app. split; assumption.
  - exists e1. split; assumption.
Qed.

End Appending.

Lemma appends_try_catch {A} (P : event -> Prop) (m : M A) (handler : exn -> M A) :
  appends P m -> (forall e, appends P (handler e)) -> appends P (try_catch m handler).
Proof.
  intros Hm Hk w. unfold try_catch.
  destruct (Hm w) as (e1 & H1 & F1).
  destruct (m w) as [[a | e] w1]; cbn [snd] in H1.
  - exists e1. split; assumption.
  - destruct (Hk e w1) as (e2 & H2 & F2).
    exists (e1 ++ e2). rewrite H2, H1, app_assoc. split; [reflexivity |].
    apply Forall_app. split; assumption.
Qed.

Lemma appends_emit (P : event -> Prop) (e : event) : P e -> appends P (emit e).
Proof. intros H w. exists [e]. split; [reflexivity | constructor; [exact H | constructor]]. Qed.

Lemma appends_print (P : event -> Prop) (host : Host) (l : line) :
  P (Print l) -> appends P (print host l).
Proof.
  intros H. unfold print.
  destruct (printable host l); [apply appends_emit; exact H | apply appends_raise].
Qed.

Lemma appends_get_fs (P : event -> Prop) : appends P get_fs.
Proof. intros w. exists []. rewrite app_nil_r. split; [reflexivity | constructor]. Qed.

Lemma appends_get_now (P : event -> Prop) : appends P get_now.
Proof. intros w. exists []. rewrite app_nil_r. split; [reflexivity | constructor]. Qed.

Lemma appends_set_fs (P : event -> Prop) (d : node) : appends P (set_fs d).
Proof.
  intros w. exists []. unfold set_fs. cbn [snd trace]. rewrite app_nil_r.
  split; [reflexivity | constructor].
Qed.

Lemma appends_value_or {A} (P : event -> Prop) (e : exn) (o : option A) :
  appends P (value_or e o).
Proof. destruct o; [apply appends_ret | apply appends_raise]. Qed.

Lemma appends_when (P : event -> Prop) (b : bool) (m : M unit) :
  appends P m -> appends P (when b m).
Proof. intros H. destruct b; [exact H | apply appends_ret]. Qed.

Lemma appends_for_each {A} (P : event -> Prop) (body : A -> M unit) (xs : list A) :
  (forall x, appends P (body x)) -> appends P (for_each xs body).
Proof.
  intros H. induction xs as [|x rest IH]; simpl.
  - apply appends_ret.
  - apply appends_bind; [apply H | intros _; exact IH].
Qed.

Lemma appends_weaken {A} (P Q : event -> Prop) (m : M A) :
  (forall e, P e -> Q e) -> appends P m -> appends Q m.
Proof.
  intros HPQ Hm w. destruct (Hm w) as (evs & Ht & HF).
  exists evs. split; [exact Ht |]. revert HF. apply Forall_impl. exact HPQ.
Qed.

Ltac appends_step :=
  match goal with
  | |- appends _ (bind _ _) => apply appends_bind; [| intros ?]
  | |- appends _ (try_catch _ _) => apply appends_try_catch; [| intros ?]
  | |- appends _ (when _ _) => apply appends_when
  | |- appends _ (print _ _) => apply appends_print; reflexivity
  | |- appends _ (emit _) => apply appends_emit; reflexivity
  | |- appends _ (ret _) => apply appends_ret
  | |- appends _ (raise _) => apply appends_raise
  | |- appends _ (value_or _ _) => apply appends_value_or
  | |- appends _ get_fs => apply appends_get_fs
  | |- appends _ get_now => apply appends_get_now
  | |- appends _ (set_fs _) => apply appends_set_fs
  | |- appends _ (if ?c then _ else _) => destruct c
  | |- appends _ (match ?x with _ => _ end) => destruct x
  end.

Lemma removals_none (evs : list event) :
  Forall (fun e => removals [e] = []) evs -> removals evs = [].
Proof.
  induction 1 as [|e evs He _ IH]; [reflexivity |].
  change (e :: evs) with ([e] ++ evs). rewrite removals_app, He, IH. reflexivity.
Qed.

(** A computation none of whose events is a removal leaves the
    removals of the trace as they were. *)
Lemma removals_kept {A} (P : event -> Prop) (m : M A) (w : world) :
  (forall e, P e -> removals [e] = []) ->
  appends P m ->
  removals (trace (snd (m w))) = removals (trace w).
Proof.
  intros HP Hm. destruct (Hm w) as (evs & -> & HF).
  rewrite removals_app, (removals_none evs).
  - apply app_nil_r.
  - revert HF. apply Forall_impl. exact HP.
Qed.

Lemma candidate_is_scan_event (e : event) : candidate_event e = true -> scan_event e = true.
Proof. destruct e as [[]| | | | |]; simpl; congruence. Qed.

Lemma scan_event_no_removal (e : event) : scan_event e = true -> removals [e] = [].
Proof. destruct e; simpl; congruence. Qed.

Lemma display_event_no_removal (e : event) : display_event e = true -> removals [e] = [].
Proof. destruct e; simpl; congruence. Qed.

(** ** The scan *)



(** A diagnostic that is switched off or renders. *)
Lemma when_print_run (host : Host) (verbose : bool) (l : line) (w : world) :
  verbose = false \/ printable host l = true ->
  when verbose (print host l) w
  = (Returned tt,
     {| fs := fs w; now := now w;
        trace := trace w ++ (if verbose then [Print l] else []) |}).
Proof.
  destruct w as [f n t]. unfold when, print, ret, emit. cbn [fs now trace].
  intros [-> | ->].
  - rewrite app_nil_r. reflexivity.
  - destruct verbose; [reflexivity | rewrite app_nil_r; reflexivity].
Qed.

(** [get_dir_size] and [get_dir_age_days] meet no failing [stat]:
    [stat] is asked of paths that [is_file] accepted. *)
Lemma sum_sizes_files (fs : node) (files : list Path) :
  sum_sizes fs (filter (is_file fs) files) = Some (file_bytes (stat fs) files).
Proof.
  induction files as [|f rest IH]; simpl.
  - reflexivity.
  - unfold is_file at 1. destruct (stat fs f) as [[sz mt|wr es|t]|] eqn:E; try exact IH.
    simpl. rewrite E, IH. reflexivity.
Qed.

Lemma mtimes_files (fs : node) (files : list Path) :
  mtimes fs (filter (is_file fs) files) = Some (file_mtimes (stat fs) files).
Proof.
  induction files as [|f rest IH]; simpl.
  - reflexivity.
  - unfold is_file at 1. destruct (stat fs f) as [[sz mt|wr es|t]|] eqn:E; try exact IH.
    simpl. rewrite E, IH. reflexivity.
Qed.

Lemma get_dir_size_value (fs : node) (p : Path) :
  get_dir_size fs p
  = Some (true_divide (file_bytes (stat fs) (rglob fs p)) (1024 * 1024)).
Proof. unfold get_dir_size. rewrite sum_sizes_files. reflexivity. Qed.

Lemma get_dir_age_days_value (host : Host) (fs : node) (t : Z) (p : Path) :
  get_dir_age_days host fs t p
  = match file_mtimes (stat fs) (rglob fs p) with
    | [] => Some 0
    | m :: ms =>
        match fromtimestamp host (maximum m ms) with
        | LocalTime modified => Some ((datetime_now host t - modified) / day_us)
        | RaisesValueError => Some 0
        | RaisesOverflowError => None
        end
    end.
Proof. unfold get_dir_age_days. rewrite mtimes_files. reflexivity. Qed.

Section ScanFacts.

Variable host : Host.
Variable verbose : bool.

Lemma logs_get_venv_packages (venv_path : Path) :
  logs (get_venv_packages host verbose venv_path).
Proof. unfold get_venv_packages, probe_failed. repeat logs_step. Qed.

Lemma logs_scan_candidate (older_than_days : option Z) (p : Path) :
  logs (scan_candidate host verbose older_than_days p).
Proof.
  unfold scan_candidate, examine, skip_candidate.
  repeat (logs_step || apply logs_get_venv_packages).
Qed.

Lemma logs_scan_loop (older_than_days : option Z) (dirs : list Path) :
  forall venvs, logs (scan_loop host verbose older_than_days dirs venvs).
Proof.
  induction dirs as [|p rest IH]; intros venvs; simpl.
  - apply logs_ret.
  - apply logs_bind; [apply logs_emit | intros _].
    apply logs_bind; [apply logs_scan_candidate | intros r]. apply IH.
Qed.

Lemma logs_leave_progress (dirs : list Path) : logs (leave_progress host dirs).
Proof. unfold leave_progress. repeat logs_step. Qed.

Lemma logs_scan_virtualenvs (root_path : Path) (older_than_days : option Z) :
  logs (scan_virtualenvs host verbose root_path older_than_days).
Proof.
  unfold scan_virtualenvs.
  repeat (logs_step || apply logs_scan_loop || apply logs_leave_progress).
Qed.

Lemma appends_get_venv_packages (venv_path : Path) :
  appends (fun e => candidate_event e = true) (get_venv_packages host verbose venv_path).
Proof. unfold get_venv_packages, probe_failed. repeat appends_step. Qed.

Lemma appends_scan_candidate (older_than_days : option Z) (p : Path) :
  appends (fun e => candidate_event e = true) (scan_candidate host verbose older_than_days p).
Proof.
  unfold scan_candidate, examine, skip_candidate.
  repeat (appends_step || apply appends_get_venv_packages).
Qed.

Lemma appends_scan_virtualenvs (root_path : Path) (older_than_days : option Z) :
  appends (fun e => scan_event e = true)
          (scan_virtualenvs host verbose root_path older_than_days).
Proof.
  unfold scan_virtualenvs, leave_progress.
  apply appends_bind; [apply appends_get_fs | intros d].
  apply appends_bind; [repeat appends_step | intros _].
  apply appends_bind; [| intros venvs; repeat appends_step].
  generalize (@nil VirtualEnv).
  induction (rglob d (resolve d root_path)) as [|p rest IH]; intros venvs; simpl.
  - apply appends_ret.
  - apply appends_bind; [apply appends_emit; reflexivity | intros _].
    apply appends_bind; [| intros r; apply IH].
    apply (appends_weaken (fun e => candidate_event e = true)).
    + apply candidate_is_scan_event.
    + apply appends_scan_candidate.
Qed.

(** *** The probe *)

(** Whatever a probe returns is [probe_value]. *)
Lemma get_venv_packages_returned (venv_path : Path) (w : world) (r : option (list package)) :
  fst (get_venv_packages host verbose venv_path w) = Returned r ->
  r = probe_value host (fs w) venv_path.
Proof.
  unfold get_venv_packages, probe_value.
  rewrite bind_emit, bind_get_fs. cbn [fs now trace].
  destruct (negb (exists_ (fs w) (_get_python_path host (fs w) venv_path))).
  - unfold when, print, printable, bind, emit, ret, raise.
    destruct verbose; [destruct (renders host (WarnNoPython venv_path)) |];
      cbn [fst]; congruence.
  - rewrite bind_emit.
    destruct (subprocess_run host (fs w) _) as [|rc out]; [apply probe_failed_returned |].
    destruct (negb (rc =? 0)); [apply probe_failed_returned |].
    destruct (json_loads host out) as [pk|]; [| apply probe_failed_returned].
    destruct (iterate pk) as [items|]; [| apply probe_failed_returned].
    destruct (package_dicts items); [| apply probe_failed_returned].
    cbn [ret fst]. congruence.
Qed.




(** *** One entry of the walk *)

Lemma skip_candidate_returned (p : Path) (e : exn) (w : world) (v : VirtualEnv) :
  fst (skip_candidate host verbose p e w) <> Returned (Some v).
Proof.
  unfold skip_candidate, when, print, printable, bind, emit, ret, raise.
  destruct verbose; [destruct (renders host (WarnProcessing p e)) |]; cbn [fst]; congruence.
Qed.

(** Every record a candidate yields is [candidate_value], and its
    packages are what the probe returned. *)
Lemma scan_candidate_returned (older_than_days : option Z) (p : Path) (w : world)
      (v : VirtualEnv) :
  fst (scan_candidate host verbose older_than_days p w) = Returned (Some v) ->
  candidate_value host older_than_days (fs w) (now w) p = Some v
  /\ result_of (get_venv_packages host verbose p) (fs w) (now w) = Returned (packages v).
Proof.
  unfold scan_candidate, candidate_value. rewrite bind_get_fs.
  destruct (is_dir (fs w) p && is_virtualenv (fs w) p); [| discriminate].
  unfold try_catch, examine.
  rewrite get_dir_size_value. cbn [value_or]. rewrite bind_ret, bind_get_now.
  destruct (get_dir_age_days host (fs w) (now w) p) as [a|]; cbn [value_or].
  - rewrite bind_ret. destruct (selected older_than_days a).
    + unfold bind at 1.
      pose proof (get_venv_packages_returned p w) as Hr.
      pose proof (logs_result _ w (logs_get_venv_packages p)) as Hl.
      destruct (get_venv_packages host verbose p w) as [[r | e] w'].
      * cbn [ret fst] in *. intros H. injection H as <-. cbn [packages].
        split; [rewrite <- (Hr r eq_refl); reflexivity | symmetry; exact Hl].
      * intros H. exfalso. exact (skip_candidate_returned p e w' v H).
    + discriminate.
  - rewrite bind_raise. intros H. exfalso.
    exact (skip_candidate_returned p OverflowError w v H).
Qed.


(** *** The loop *)


(** Every record of the loop was there before or is the
    [candidate_value] of an entry, with the packages its probe
    returned. *)
Lemma scan_loop_returned (older_than_days : option Z) (dirs : list Path) :
  forall venvs w out,
    fst (scan_loop host verbose older_than_days dirs venvs w) = Returned out ->
    forall v, In v out ->
              In v venvs
              \/ exists p, In p dirs
                           /\ candidate_value host older_than_days (fs w) (now w) p = Some v
                           /\ result_of (get_venv_packages host verbose p) (fs w) (now w)
                              = Returned (packages v).
Proof.
  induction dirs as [|p rest IH]; intros venvs w out H v Hin.
  - cbn [scan_loop ret fst] in H. injection H as <-. left. exact Hin.
  - cbn [scan_loop] in H. rewrite bind_emit in H. unfold bind at 1 in H.
    set (w1 := {| fs := fs w; now := now w; trace := trace w ++ [Progress (shown host p)] |})
      in *.
    pose proof (logs_fs _ w1 (logs_scan_candidate older_than_days p)) as Hf.
    pose proof (logs_now _ w1 (logs_scan_candidate older_than_days p)) as Hn.
    pose proof (scan_candidate_returned older_than_days p w1) as Hc.
    destruct (scan_candidate host verbose older_than_days p w1) as [[r | e] w2];
      [| discriminate].
    cbn [fst snd] in Hf, Hn, Hc. change (fs w1) with (fs w) in *.
    change (now w1) with (now w) in *.
    destruct (IH _ w2 out H v Hin) as [Hold | (q & Hq & Hv)].
    + destruct r as [v0|].
      * apply in_app_or in Hold. destruct Hold as [Hold | [<- | []]].
        -- left. exact Hold.
        -- right. exists p. split; [left; reflexivity | apply Hc; reflexivity].
      * left. exact Hold.
    + right. exists q. split; [right; exact Hq |]. rewrite <- Hf, <- Hn. exact Hv.
Qed.

(** *** [scan_virtualenvs] *)


(** Every record a scan returns is the [candidate_value] of an entry
    of the walk, with the packages its probe returned. *)
Lemma scan_virtualenvs_returned (root_path : Path) (older_than_days : option Z) (w : world)
      (venvs : list VirtualEnv) (v : VirtualEnv) :
  fst (scan_virtualenvs host verbose root_path older_than_days w) = Returned venvs ->
  In v venvs ->
  exists p, In p (rglob (fs w) (resolve (fs w) root_path))
            /\ candidate_value host older_than_days (fs w) (now w) p = Some v
            /\ result_of (get_venv_packages host verbose p) (fs w) (now w)
               = Returned (packages v).
Proof.
  unfold scan_virtualenvs. rewrite bind_get_fs.
  unfold bind at 1. rewrite when_print_run by (right; reflexivity).
  set (w1 := {| fs := fs w; now := now w; trace := trace w ++ _ |}).
  unfold bind at 1.
  pose proof (scan_loop_returned older_than_days (rglob (fs w) (resolve (fs w) root_path))
                                 [] w1) as Hl.
  destruct (scan_loop host verbose older_than_days _ [] w1) as [[out | e] w2];
    [| discriminate].
  intros H Hin.
  assert (venvs = out) as ->.
  { revert H. unfold bind at 1.
    destruct (leave_progress host _ w2) as [[[] | e] w3]; [| discriminate].
    unfold bind at 1.
    destruct (when verbose _ w3) as [[[] | e] w4]; [| discriminate].
    cbn [ret fst]. congruence. }
  destruct (Hl out eq_refl v Hin) as [[] | Hex]. exact Hex.
Qed.

(** What [candidate_value] says of a record. *)
Lemma candidate_value_some (older_than_days : option Z) (disk : node) (t : Z) (p : Path)
      (v : VirtualEnv) :
  candidate_value host older_than_days disk t p = Some v ->
  path v = p
  /\ is_dir disk p = true
  /\ is_virtualenv disk p = true
  /\ get_dir_size disk p = Some (size_mb v)
  /\ get_dir_age_days host disk t p = Some (age_days v)
  /\ selected older_than_days (age_days v) = true
  /\ packages v = probe_value host disk p
  /\ (is_broken v = true <-> packages v = None).
Proof.
  unfold candidate_value.
  destruct (is_dir disk p) eqn:Hd; [| discriminate].
  destruct (is_virtualenv disk p) eqn:Hv; [| discriminate].
  cbn [andb].
  destruct (get_dir_size disk p) as [sz|]; [| discriminate].
  destruct (get_dir_age_days host disk t p) as [a|]; [| discriminate].
  destruct (selected older_than_days a) eqn:Hs; [| discriminate].
  intros H. injection H as <-. cbn [path size_mb age_days is_broken packages].
  repeat split; try assumption.
  - destruct (probe_value host disk p); [discriminate | reflexivity].
  - destruct (probe_value host disk p); [discriminate | reflexivity].
Qed.


End ScanFacts.

(** ** The records of a scan *)

(** C10: in every record of a scan, [is_broken] is true exactly when
    [packages] is [None]: a healthy record carries a package list and
    a broken one carries none. *)
Theorem scan_broken_iff_no_packages (host : Host) (verbose : bool) (root_path : Path)
        (older_than_days : option Z) (w : world) (venvs : list VirtualEnv) (v : VirtualEnv) :
  fst (scan_virtualenvs host verbose root_path older_than_days w) = Returned venvs ->
  In v venvs ->
  (is_broken v = true <-> packages v = None).
Proof.
  intros H Hin.
  destruct (scan_virtualenvs_returned host verbose root_path older_than_days w venvs v H Hin)
    as (p & _ & Hv & _).
  apply candidate_value_some in Hv. apply Hv.
Qed.

Lemma scan_broken_iff_no_packages_witness :
  fst (scan_virtualenvs posix_host false ["home"] None (start sample_fs scan_time))
  = Returned [old_record; fresh_record]
  /\ (is_broken old_record = true <-> packages old_record = None)
  /\ (is_broken fresh_record = true <-> packages fresh_record = None).
Proof.
  assert (fst (scan_virtualenvs posix_host false ["home"] None (start sample_fs scan_time))
          = Returned [old_record; fresh_record]) as H by (vm_compute; reflexivity).
  split; [exact H |]. split.
  - apply (scan_broken_iff_no_packages posix_host false ["home"] None
                                       (start sample_fs scan_time) _ old_record H).
    left. reflexivity.
  - apply (scan_broken_iff_no_packages posix_host false ["home"] None
                                       (start sample_fs scan_time) _ fresh_record H).
    right. left. reflexivity.
Defined.




(** ** The size a record carries *)






(** ** [get_dir_age_days] *)

Lemma in_file_mtimes (st : Path -> option node) (files : list Path) (m : Z) :
  In m (file_mtimes st files) <-> exists f s, In f files /\ st f = Some (File s m).
Proof.
  induction files as [|f rest IH]; simpl.
  - split; [contradiction | intros (f & s & [] & _)].
  - split.
    + intros H. destruct (st f) as [[sz mt|wr es|t]|] eqn:E.
      * destruct H as [<- | H].
        -- exists f, sz. split; [left; reflexivity | exact E].
        -- apply IH in H. destruct H as (f' & s & Hin & Hst). exists f', s. auto.
      * apply IH in H. destruct H as (f' & s & Hin & Hst). exists f', s. auto.
      * apply IH in H. destruct H as (f' & s & Hin & Hst). exists f', s. auto.
      * apply IH in H. destruct H as (f' & s & Hin & Hst). exists f', s. auto.
    + intros (f' & s & [-> | Hin] & Hst).
      * rewrite Hst. left. reflexivity.
      * assert (In m (file_mtimes st rest)) as H by (apply IH; exists f', s; auto).
        destruct (st f) as [[sz mt|wr es|t]|]; [right |..]; exact H.
Qed.

Lemma maximum_in (xs : list Z) : forall x, In (maximum x xs) (x :: xs).
Proof.
  unfold maximum. induction xs as [|y ys IH]; intros x; simpl.
  - left. reflexivity.
  - destruct (IH (Z.max x y)) as [H | H].
    + rewrite <- H. destruct (Z.max_spec x y) as [[_ ->] | [_ ->]]; auto.
    + right. right. exact H.
Qed.

Lemma maximum_upper (xs : list Z) : forall x y, In y (x :: xs) -> y <= maximum x xs.
Proof.
  unfold maximum. induction xs as [|z zs IH]; intros x y H; simpl.
  - destruct H as [<- | []]. lia.
  - destruct H as [H | [H | H]].
    + subst y. apply Z.le_trans with (Z.max x z); [lia | apply IH; left; reflexivity].
    + subst y. apply Z.le_trans with (Z.max x z); [lia | apply IH; left; reflexivity].
    + apply IH. right. exact H.
Qed.

Lemma newest_mtime (disk : node) (files : list Path) (f : Path) (s m m0 : Z) (ms : list Z) :
  file_mtimes (stat disk) files = m0 :: ms ->
  In f files ->
  stat disk f = Some (File s m) ->
  (forall f' s' m', In f' files -> stat disk f' = Some (File s' m') -> m' <= m) ->
  maximum m0 ms = m.
Proof.
  intros E Hin Hst Hnewest. apply Z.le_antisymm.
  - pose proof (maximum_in ms m0) as Hmax. rewrite <- E in Hmax.
    apply in_file_mtimes in Hmax. destruct Hmax as (f' & s' & Hin' & Hst').
    apply (Hnewest f' s'); assumption.
  - apply maximum_upper. rewrite <- E. apply in_file_mtimes. exists f, s. auto.
Qed.

(** C8 as stated fails, in four ways.  [is_file] and [stat] follow
    symbolic links: the only regular file of [/d/mixed] was modified
    exactly 30 days before the scan and the age is 1, that of the file
    a link leads to outside the directory; and [/d/links] holds no
    regular file and the age is 7, not 0.  The days are counted
    between two local wall-clock times: the regular file of
    [/d/summer] was modified exactly 10 days (864000 seconds) before
    the scan, summer time ended in between, and the age is 9.  And
    the [ValueError] that [fromtimestamp] raises for a year after 9999
    is caught like that of [max]: the file of [/d/future] is dated
    3000000 days after the scan and the age is 0. *)
Lemma age_days_not_of_regular_files :
  (exists n,
      descend aged_fs ["d"; "mixed"] = Found n
      /\ regular_mtimes n = [70 * 86400000000]
      /\ scan_time - 70 * 86400000000 = 30 * 86400000000
      /\ get_dir_age_days posix_host aged_fs scan_time ["d"; "mixed"] = Some 1)
  /\ (exists n,
         descend aged_fs ["d"; "links"] = Found n
         /\ regular_mtimes n = []
         /\ get_dir_age_days posix_host aged_fs scan_time ["d"; "links"] = Some 7)
  /\ (exists n,
         descend aged_fs ["d"; "summer"] = Found n
         /\ regular_mtimes n = [90 * 86400000000]
         /\ scan_time - 90 * 86400000000 = 10 * 86400000000
         /\ get_dir_age_days dst_host aged_fs scan_time ["d"; "summer"] = Some 9)
  /\ (exists n,
         descend aged_fs ["d"; "future"] = Found n
         /\ regular_mtimes n = [3000100 * 86400000000]
         /\ scan_time - 3000100 * 86400000000 = -3000000 * 86400000000
         /\ get_dir_age_days bounded_host aged_fs scan_time ["d"; "future"] = Some 0).
Proof.
  repeat split; eexists; repeat split; vm_compute; reflexivity.
Qed.

(** C8 (amended): take as the files of a directory the entries
    beneath it, at any depth, that [stat] shows to be regular files,
    which includes a symbolic link that leads to one, here or
    elsewhere, with the modification time of that file.  When the
    newest of them has a modification time that [fromtimestamp] turns
    into a local time, and this local time lies exactly [N] days,
    that is [N] times 86400000000 microseconds, before the local time
    of the scan, [get_dir_age_days] is [N]; and when there is no such
    file, it is 0, the failure of [max] being caught. *)
Theorem age_days_of_newest_file (host : Host) (disk : node) (t : Z) (p : Path) :
  (forall f s m l N,
      In f (rglob disk p) ->
      stat disk f = Some (File s m) ->
      (forall f' s' m', In f' (rglob disk p) -> stat disk f' = Some (File s' m') -> m' <= m) ->
      fromtimestamp host m = LocalTime l ->
      datetime_now host t - l = N * 86400000000 ->
      get_dir_age_days host disk t p = Some N)
  /\ ((forall f, In f (rglob disk p) -> is_file disk f = false) ->
      get_dir_age_days host disk t p = Some 0).
Proof.
  split.
  - intros f s m l N Hin Hst Hnewest Hlocal Hexact.
    rewrite get_dir_age_days_value.
    assert (In m (file_mtimes (stat disk) (rglob disk p))) as Hm
        by (apply in_file_mtimes; exists f, s; auto).
    destruct (file_mtimes (stat disk) (rglob disk p)) as [|m0 ms] eqn:E; [contradiction |].
    rewrite (newest_mtime disk _ f s m m0 ms E Hin Hst Hnewest), Hlocal, Hexact.
    unfold day_us. change (86400 * 1000000) with 86400000000.
    rewrite Z.div_mul; [reflexivity | discriminate].
  - intros Hnone. rewrite get_dir_age_days_value.
    destruct (file_mtimes (stat disk) (rglob disk p)) as [|m0 ms] eqn:E; [reflexivity |].
    assert (In m0 (file_mtimes (stat disk) (rglob disk p))) as Hm by (rewrite E; left; reflexivity).
    apply in_file_mtimes in Hm. destruct Hm as (f & s & Hin & Hst).
    specialize (Hnone f Hin). unfold is_file in Hnone. rewrite Hst in Hnone. discriminate.
Qed.

(** [old] at [scan_time]: its newest file, [pyvenv.cfg], is exactly
    40 days old; [/srv/empty] holds no file. *)
Lemma age_days_of_newest_file_witness :
  get_dir_age_days posix_host sample_fs scan_time old_venv = Some 40
  /\ get_dir_age_days posix_host sample_fs scan_time empty_dir = Some 0.
Proof.
  split.
  - apply (proj1 (age_days_of_newest_file posix_host sample_fs scan_time old_venv)
                 (old_venv ++ ["pyvenv.cfg"]) 1048576 (60 * day_us)
                 (60 * day_us + hour_us) 40).
    + vm_compute. left. reflexivity.
    + reflexivity.
    + intros f' s' m' Hin Hst. vm_compute in Hin.
      destruct Hin as [<- | [<- | [<- | [<- | [<- | []]]]]];
        vm_compute in Hst; try discriminate Hst;
        injection Hst as _ <-; apply Z.leb_le; reflexivity.
    + reflexivity.
    + reflexivity.
  - apply (proj2 (age_days_of_newest_file posix_host sample_fs scan_time empty_dir)).
    intros f Hin. vm_compute in Hin. contradiction.
Defined.

(** ** [remove_virtualenv] *)

Lemma lookup_delete_same (c : string) (es : list (string * node)) :
  lookup_entry c (delete_entry c es) = None.
Proof.
  induction es as [|[k n] tl IH]; simpl.
  - reflexivity.
  - destruct (String.eqb k c) eqn:E; [exact IH |].
    simpl. rewrite E. exact IH.
Qed.

Lemma lookup_delete_other (c c' : string) (es : list (string * node)) :
  c <> c' -> lookup_entry c (delete_entry c' es) = lookup_entry c es.
Proof.
  intros Hne. induction es as [|[k n] tl IH]; simpl.
  - reflexivity.
  - destruct (String.eqb_spec k c') as [->|Hk].
    + destruct (String.eqb_spec c' c) as [->|_]; [contradiction Hne; reflexivity | exact IH].
    + simpl. rewrite IH. reflexivity.
Qed.

Lemma lookup_update_same (c : string) (f : node -> node) (es : list (string * node)) :
  lookup_entry c (update_entry c f es) = option_map f (lookup_entry c es).
Proof.
  induction es as [|[k n] tl IH]; simpl.
  - reflexivity.
  - destruct (String.eqb k c) eqn:E; simpl; rewrite E; [reflexivity | exact IH].
Qed.

Lemma lookup_update_other (c c' : string) (f : node -> node) (es : list (string * node)) :
  c <> c' -> lookup_entry c (update_entry c' f es) = lookup_entry c es.
Proof.
  intros Hne. induction es as [|[k n] tl IH]; simpl.
  - reflexivity.
  - destruct (String.eqb_spec k c') as [->|Hk]; simpl.
    + destruct (String.eqb_spec c' c) as [->|_]; [contradiction Hne; reflexivity | exact IH].
    + rewrite IH. reflexivity.
Qed.

(** A pass that met a link meets the same link after a removal, or
    nothing at all. *)
Lemma descend_remove_redirect (p : Path) :
  forall cur q t,
    descend cur p = Redirect t ->
    descend (remove_at cur q) p = Redirect t \/ descend (remove_at cur q) p = Missing.
Proof.
  induction p as [|c rest IH]; intros cur q t H.
  - discriminate.
  - destruct cur as [sz mt|wr es|tg].
    + discriminate.
    + cbn [descend] in H.
      destruct q as [|c' [|c'' q']]; cbn [remove_at descend].
      * left. exact H.
      * destruct (String.eqb_spec c c') as [->|Hne].
        -- rewrite lookup_delete_same. right. reflexivity.
        -- rewrite (lookup_delete_other c c' es Hne).
           destruct (lookup_entry c es); [left; exact H | discriminate].
      * destruct (String.eqb_spec c c') as [->|Hne].
        -- rewrite lookup_update_same.
           destruct (lookup_entry c' es) as [n|]; [| discriminate].
           cbn [option_map]. apply IH. exact H.
        -- rewrite (lookup_update_other c c' _ es Hne).
           destruct (lookup_entry c es); [left; exact H | discriminate].
    + left. destruct q as [|c' [|c'' q']]; exact H.
Qed.

(** What was removed is no longer found where it was. *)
Lemma descend_remove_found (q : Path) :
  forall cur n,
    q <> [] -> descend cur q = Found n -> descend (remove_at cur q) q = Missing.
Proof.
  induction q as [|c rest IH]; intros cur n Hne H.
  - contradiction Hne. reflexivity.
  - destruct cur as [sz mt|wr es|tg]; try discriminate.
    cbn [descend] in H.
    destruct (lookup_entry c es) as [n'|] eqn:E; [| discriminate].
    destruct rest as [|c' rest']; cbn [remove_at].
    + cbn [descend]. rewrite lookup_delete_same. reflexivity.
    + remember (c' :: rest') as rest eqn:Hrest.
      cbn [descend]. rewrite lookup_update_same, E. cbn [option_map].
      apply (IH n' n); [subst rest; discriminate | exact H].
Qed.


Lemma locate_realpath (root : node) (wr : bool) (es : list (string * node)) (q : Path) :
  forall fuel p, locate fuel root p = Some (q, Dir wr es) -> realpath fuel root p = q.
Proof.
  induction fuel as [|f IH]; intros p H; simpl in *.
  - discriminate.
  - destruct (descend root p) as [n|p'|].
    + injection H as -> ->. reflexivity.
    + apply IH. exact H.
    + discriminate.
Qed.

(** Once the directory at [q] is gone, no path that led to it leads
    anywhere. *)
Lemma follow_after_removal (root : node) (q : Path) (n : node) :
  q <> [] ->
  forall fuel p,
    locate fuel root p = Some (q, n) ->
    follow fuel (remove_at root q) p = None.
Proof.
  intros Hne. induction fuel as [|f IH]; intros p H.
  - reflexivity.
  - rewrite follow_S. cbn [locate] in H.
    destruct (descend root p) as [n'|p'|] eqn:E.
    + injection H as -> ->.
      rewrite (descend_remove_found q root n Hne E). reflexivity.
    + destruct (descend_remove_redirect p root q p' E) as [-> | ->].
      * cbn [continue]. apply IH. exact H.
      * reflexivity.
    + discriminate.
Qed.



(** What [remove_virtualenv] does with the outcome of [rmtree]. *)
Lemma remove_virtualenv_run (p : Path) (w : world) :
  remove_virtualenv p w
  = (Returned (snd (rmtree (fs w) p)),
     {| fs := fst (rmtree (fs w) p);
        now := now w;
        trace := (trace w ++ [Rmtree p])
                 ++ (if snd (rmtree (fs w) p) then [] else [Stderr (FailedToRemove p)]) |}).
Proof.
  unfold remove_virtualenv. rewrite bind_emit, bind_get_fs. cbn [fs now trace].
  destruct (rmtree (fs w) p) as [d [|]]; rewrite bind_set_fs; cbn [fs now trace fst snd].
  - rewrite app_nil_r. reflexivity.
  - rewrite bind_emit. reflexivity.
Qed.



(** ** [process_virtualenvs] *)

Lemma bind_run {A B} (m : M A) (k : A -> M B) (w w' : world) (r : outcome A) :
  m w = (r, w') ->
  bind m k w = match r with
               | Returned a => k a w'
               | Raised e => (Raised e, w')
               end.
Proof. intros H. unfold bind. rewrite H. reflexivity. Qed.

Lemma bind_print_renders {B} (host : Host) (l : line) (k : unit -> M B) (w : world) :
  printable host l = true ->
  bind (print host l) k w
  = k tt {| fs := fs w; now := now w; trace := trace w ++ [Print l] |}.
Proof. intros H. unfold bind. rewrite (print_renders host l w H). reflexivity. Qed.

Lemma bind_print_fails {B} (host : Host) (l : line) (k : unit -> M B) (w : world) :
  printable host l = false ->
  bind (print host l) k w = (Raised MarkupError, w).
Proof. intros H. unfold bind. rewrite (print_fails host l w H). reflexivity. Qed.

(** Printing one text for each item of a list, when all of them render. *)
Lemma for_each_print_run {A} (host : Host) (f : A -> line) (xs : list A) :
  (forall x, In x xs -> printable host (f x) = true) ->
  forall w,
    for_each xs (fun x => print host (f x)) w
    = (Returned tt,
       {| fs := fs w; now := now w; trace := trace w ++ map (fun x => Print (f x)) xs |}).
Proof.
  induction xs as [|x rest IH]; intros H w.
  - destruct w as [d n t]. cbn [for_each ret map fs now trace]. rewrite app_nil_r. reflexivity.
  - cbn [for_each]. rewrite bind_print_renders by (apply H; left; reflexivity).
    rewrite IH by (intros y Hy; apply H; right; exact Hy).
    cbn [fs now trace map]. rewrite <- app_assoc. reflexivity.
Qed.

Lemma for_each_returns {A} (P : A -> Prop) (body : A -> M unit) (xs : list A) :
  (forall x w, P x -> fst (body x w) = Returned tt) ->
  Forall P xs ->
  forall w, fst (for_each xs body w) = Returned tt.
Proof.
  intros Hbody. induction 1 as [|x rest Hx _ IH]; intros w.
  - reflexivity.
  - cbn [for_each]. unfold bind. pose proof (Hbody x w Hx) as H.
    destruct (body x w) as [[[] | e] w1]; [apply IH | discriminate H].
Qed.

Section ProcessFacts.

Variable host : Host.

Lemma logs_display_venv_info (venv : VirtualEnv) (show_packages : bool) :
  logs (display_venv_info host venv show_packages).
Proof.
  unfold display_venv_info.
  repeat (logs_step || (apply logs_for_each; intros ?)).
Qed.

Lemma appends_display_venv_info (venv : VirtualEnv) (show_packages : bool) :
  appends (fun e => display_event e = true) (display_venv_info host venv show_packages).
Proof.
  unfold display_venv_info.
  repeat (appends_step || (apply appends_for_each; intros ?)).
Qed.

(** Without [--remove-broken] the run only reads and prints, whatever
    [--remove] is. *)
Lemma logs_process_virtualenvs (verbose : bool) (root : Path) (args : Args) :
  remove_broken args = false ->
  logs (process_virtualenvs host verbose root args).
Proof.
  intros H. unfold process_virtualenvs, report.
  apply logs_try_catch; [| intros e; apply logs_raise].
  apply logs_bind; [apply logs_scan_virtualenvs | intros venvs].
  destruct venvs as [|v vs]; [apply logs_print |].
  apply logs_bind.
  - apply logs_for_each. intros venv. unfold process_one. rewrite H, andb_false_r.
    apply logs_bind; [apply logs_display_venv_info | intros _; apply logs_ret].
  - intros _. repeat logs_step.
Qed.

(** A record whose lines render is displayed. *)
Lemma display_venv_info_returns (venv : VirtualEnv) (show_packages : bool) (w : world) :
  displayable host venv ->
  fst (display_venv_info host venv show_packages w) = Returned tt.
Proof.
  intros [Hpath Hpkgs]. unfold display_venv_info.
  rewrite bind_print_renders by exact Hpath.
  rewrite !bind_print_renders by reflexivity.
  destruct (is_broken venv); [rewrite print_renders by reflexivity; reflexivity |].
  rewrite bind_print_renders by reflexivity.
  destruct (packages venv) as [[|pkg pkgs]|] eqn:E; try reflexivity.
  destruct show_packages; [| reflexivity]. cbn [when].
  rewrite bind_print_renders by reflexivity.
  rewrite for_each_print_run; [reflexivity |].
  intros x Hx. exact (Hpkgs (pkg :: pkgs) x eq_refl Hx).
Qed.

Lemma process_one_returns (args : Args) (venv : VirtualEnv) (w : world) :
  displayable host venv ->
  fst (process_one host args venv w) = Returned tt.
Proof.
  intros Hd. unfold process_one. unfold bind at 1.
  pose proof (display_venv_info_returns venv (list_packages args) w Hd) as H.
  destruct (display_venv_info host venv (list_packages args) w) as [[[] | e] w1];
    [| discriminate H].
  cbv beta. destruct (is_broken venv && remove_broken args); [| reflexivity].
  rewrite bind_print_renders by reflexivity.
  unfold bind. rewrite remove_virtualenv_run.
  destruct (snd (rmtree _ _)); rewrite print_renders by reflexivity; reflexivity.
Qed.

End ProcessFacts.

(** C2 as stated fails: with [--older-than 30] and no [--remove], a
    scan of [/srv], which holds no environment, ends after "No
    virtual environments found." and prints no note. *)
Lemma no_dry_run_note_without_records :
  older_than (report_args ["srv"]) = Some 30
  /\ remove (report_args ["srv"]) = false
  /\ main posix_host (report_args ["srv"]) (start sample_fs scan_time)
     = (Returned tt,
        {| fs := sample_fs; now := scan_time;
           trace := [Progress "/srv/empty"; Print NoneFound] |})
  /\ ~ In (Print DryRunNote)
          (trace (snd (main posix_host (report_args ["srv"]) (start sample_fs scan_time)))).
Proof.
  split; [reflexivity |]. split; [reflexivity |]. split; [vm_compute; reflexivity |].
  vm_compute. intros [H | [H | []]]; discriminate H.
Qed.

(** C2 (amended): when the age threshold is set and is not 0, the
    remove flag is not given and the scan yields at least one record,
    [process_virtualenvs] returns provided that the console renders
    the path and the package lines of every record, and whenever it
    returns the last thing it prints is the dry-run note. *)
Theorem dry_run_note_printed (host : Host) (verbose : bool) (root : Path) (args : Args)
        (w : world) (t : Z) (venvs : list VirtualEnv) :
  older_than args = Some t ->
  t <> 0 ->
  remove args = false ->
  fst (scan_virtualenvs host verbose root (older_than args) w) = Returned venvs ->
  venvs <> [] ->
  (Forall (displayable host) venvs ->
   fst (process_virtualenvs host verbose root args w) = Returned tt)
  /\ (fst (process_virtualenvs host verbose root args w) = Returned tt ->
      exists earlier,
        trace (snd (process_virtualenvs host verbose root args w))
        = earlier ++ [Print DryRunNote]).
Proof.
  intros Ht Hnz Hrm Hscan Hsome. unfold process_virtualenvs, try_catch, report.
  destruct (scan_virtualenvs host verbose root (older_than args) w) as [[vs | e] w1] eqn:E;
    [| discriminate Hscan].
  cbn [fst] in Hscan. injection Hscan as ->.
  rewrite (bind_run _ _ _ _ _ E).
  destruct venvs as [|v vs]; [contradiction Hsome; reflexivity |].
  rewrite Ht, Hrm. cbn [truthy negb andb].
  destruct (Z.eqb_spec t 0) as [->|_]; [contradiction Hnz; reflexivity |].
  cbn [negb andb when].
  split.
  - intros Hall.
    pose proof (for_each_returns (displayable host) (process_one host args) (v :: vs)
                                 (fun x w' Hx => process_one_returns host args x w' Hx)
                                 Hall w1) as Hloop.
    destruct (for_each (v :: vs) (process_one host args) w1) as [[[] | e] w2] eqn:E2;
      [| discriminate Hloop].
    rewrite (bind_run _ _ _ _ _ E2).
    rewrite !bind_print_renders by reflexivity. cbv beta.
    rewrite print_renders by reflexivity. reflexivity.
  - destruct (for_each (v :: vs) (process_one host args) w1) as [[[] | e] w2] eqn:E2;
      rewrite (bind_run _ _ _ _ _ E2); [| discriminate].
    rewrite !bind_print_renders by reflexivity. cbv beta.
    rewrite print_renders by reflexivity. intros _.
    cbn [snd trace fs now]. eexists. reflexivity.
Qed.

Lemma dry_run_note_printed_witness :
  fst (process_virtualenvs posix_host false ["home"] (report_args ["home"])
                           (start sample_fs scan_time)) = Returned tt
  /\ exists earlier,
      trace (snd (process_virtualenvs posix_host false ["home"] (report_args ["home"])
                                      (start sample_fs scan_time)))
      = earlier ++ [Print DryRunNote].
Proof.
  pose proof (dry_run_note_printed posix_host false ["home"] (report_args ["home"])
                                   (start sample_fs scan_time) 30 [old_record]) as H.
  destruct H as [Hret Hnote].
  - reflexivity.
  - discriminate.
  - reflexivity.
  - vm_compute. reflexivity.
  - discriminate.
  - assert (fst (process_virtualenvs posix_host false ["home"] (report_args ["home"])
                                     (start sample_fs scan_time)) = Returned tt) as Hr.
    { apply Hret. constructor; [| constructor].
      split; [reflexivity | intros l pkg _ _; reflexivity]. }
    split; [exact Hr | exact (Hnote Hr)].
Defined.

(** The threshold 0 filters ([fresh], 2 days old, is reported) and
    yet no note follows: [args.older_than] is tested for truth. *)
Example no_dry_run_note_at_zero :
  fst (scan_virtualenvs posix_host false ["home"] (Some 0) (start sample_fs scan_time))
  = Returned [old_record; fresh_record]
  /\ fst (main posix_host (zero_args ["home"]) (start sample_fs scan_time)) = Returned tt
  /\ existsb is_dry_run_note
             (trace (snd (main posix_host (zero_args ["home"]) (start sample_fs scan_time))))
     = false.
Proof. repeat split; vm_compute; reflexivity. Qed.

(** A record whose path the console refuses as markup: the scan of
    [/w] with the threshold 30 yields the record of [/w/a[/]b], its
    display raises [MarkupError], the [except] clause raises
    [TypeError] in its turn, and the run ends without the note. *)
Example no_dry_run_note_after_markup_error :
  map path (match fst (scan_virtualenvs rich_host false ["w"] (Some 30)
                                        (start markup_fs scan_time)) with
            | Returned venvs => venvs
            | Raised _ => []
            end) = [markup_venv]
  /\ fst (main rich_host (report_args ["w"]) (start markup_fs scan_time)) = Raised TypeError
  /\ existsb is_dry_run_note
             (trace (snd (main rich_host (report_args ["w"]) (start markup_fs scan_time))))
     = false.
Proof. repeat split; vm_compute; reflexivity. Qed.

(** C1 (the code departs from the claim): [--older-than 30 --remove]
    on [/home].  The scan selects [old]; the run completes, removes
    nothing, and [old] is still there afterwards. *)
Theorem remove_flag_removes_nothing :
  remove (remove_args ["home"]) = true
  /\ older_than (remove_args ["home"]) = Some 30
  /\ fst (scan_virtualenvs posix_host false ["home"] (Some 30) (start sample_fs scan_time))
     = Returned [old_record]
  /\ fst (main posix_host (remove_args ["home"]) (start sample_fs scan_time)) = Returned tt
  /\ removals (trace (snd (main posix_host (remove_args ["home"]) (start sample_fs scan_time))))
     = []
  /\ fs (snd (main posix_host (remove_args ["home"]) (start sample_fs scan_time))) = sample_fs
  /\ exists_ (fs (snd (main posix_host (remove_args ["home"]) (start sample_fs scan_time))))
             old_venv = true.
Proof. repeat split; vm_compute; reflexivity. Qed.
(** * Further properties *)

(** ** [trim_path]: what the output is made of *)

Lemma append_assoc (a b c : string) : ((a ++ b) ++ c = a ++ (b ++ c))%string.
Proof. induction a as [|x a IH]; simpl; congruence. Qed.

Lemma append_empty_r (a : string) : (a ++ EmptyString)%string = a.
Proof. induction a as [|x a IH]; simpl; congruence. Qed.

Lemma split_nonempty (sep : ascii) (s : string) : split sep s <> [].
Proof.
  destruct s as [|c r]; simpl.
  - discriminate.
  - destruct (Ascii.eqb c sep); [discriminate |].
    destruct (split sep r); discriminate.
Qed.

(** [sep.join(s.split(sep))] is [s]. *)
Lemma join_split (sep : ascii) (s : string) : join sep (split sep s) = s.
Proof.
  induction s as [|c r IH]; simpl.
  - reflexivity.
  - destruct (Ascii.eqb_spec c sep) as [->|Hne].
    + pose proof (split_nonempty sep r) as Hne.
      destruct (split sep r) as [|h t]; [contradiction Hne; reflexivity |].
      cbn [join append]. cbn [join] in IH. rewrite IH. reflexivity.
    + pose proof (split_nonempty sep r) as Hr.
      destruct (split sep r) as [|h t]; [contradiction Hr; reflexivity |].
      destruct t as [|h' t'].
      * cbn [join] in *. rewrite IH. reflexivity.
      * cbn [join append] in *. rewrite IH. reflexivity.
Qed.

Lemma join_app (sep : ascii) (a b : list string) :
  a <> [] -> b <> [] ->
  join sep (a ++ b) = (join sep a ++ String sep (join sep b))%string.
Proof.
  intros Ha Hb. induction a as [|x a IH]; [contradiction Ha; reflexivity |].
  destruct a as [|y a'].
  - destruct b as [|z b']; [contradiction Hb; reflexivity |]. reflexivity.
  - change (join sep ((x :: y :: a') ++ b))
      with (x ++ String sep (join sep ((y :: a') ++ b)))%string.
    rewrite IH by discriminate.
    change (join sep (x :: y :: a')) with (x ++ String sep (join sep (y :: a')))%string.
    rewrite !append_assoc. reflexivity.
Qed.

(** A joined piece of the parts is a piece of the joined whole. *)
Lemma join_firstn_prefix (sep : ascii) (parts : list string) (n : nat) :
  exists rest, join sep parts = (join sep (firstn n parts) ++ rest)%string.
Proof.
  destruct (firstn n parts) as [|x a] eqn:Ea.
  - exists (join sep parts). reflexivity.
  - destruct (skipn n parts) as [|y b] eqn:Eb.
    + exists EmptyString. rewrite <- (firstn_skipn n parts) at 1.
      rewrite Ea, Eb, app_nil_r. symmetry. apply append_empty_r.
    + exists (String sep (join sep (y :: b))).
      rewrite <- (firstn_skipn n parts) at 1. rewrite Ea, Eb.
      apply join_app; discriminate.
Qed.

Lemma join_skipn_suffix (sep : ascii) (parts : list string) (n : nat) :
  exists lead, join sep parts = (lead ++ join sep (skipn n parts))%string.
Proof.
  destruct (skipn n parts) as [|y b] eqn:Eb.
  - exists (join sep parts). symmetry. apply append_empty_r.
  - destruct (firstn n parts) as [|x a] eqn:Ea.
    + exists EmptyString. rewrite <- (firstn_skipn n parts) at 1.
      rewrite Ea, Eb. reflexivity.
    + exists (join sep (x :: a) ++ String sep EmptyString)%string.
      rewrite <- (firstn_skipn n parts) at 1. rewrite Ea, Eb.
      rewrite join_app by discriminate.
      rewrite append_assoc. reflexivity.
Qed.

(** The loop of [trim_path] builds the join of a leading piece of the parts. *)
Lemma pack_join (sep : ascii) (budget : Z) (parts : list string) :
  forall pre,
    pre <> [] ->
    exists j, pack sep budget (join sep pre) parts = join sep (pre ++ firstn j parts).
Proof.
  induction parts as [|part rest IH]; intros pre Hpre.
  - exists 0%nat. cbn [pack firstn]. rewrite app_nil_r. reflexivity.
  - cbn [pack].
    destruct (len (join sep pre ++ String sep part)%string <=? budget).
    + destruct (IH (pre ++ [part])) as (j & Hj).
      { destruct pre; discriminate. }
      exists (S j). cbn [firstn].
      rewrite join_app in Hj by (assumption || discriminate).
      cbn [join] in Hj. rewrite Hj, <- app_assoc. reflexivity.
    + exists 0%nat. cbn [firstn]. rewrite app_nil_r. reflexivity.
Qed.

Lemma split_leading_sep (sep : ascii) (s : string) :
  split sep (String sep s) = EmptyString :: split sep s.
Proof. cbn [split]. rewrite Ascii.eqb_refl. reflexivity. Qed.

(** X1: when the path is longer than the limit, the last two segments
    and the marker leave room, and the first segment is within the
    room left, the output of [trim_path] is within the limit. *)
Theorem trim_path_bounded (sep : ascii) (path_str : string) (max_length : Z) :
  max_length < len path_str ->
  0 < available_start sep path_str max_length ->
  len (first_part (split sep path_str)) <= available_start sep path_str max_length ->
  len (trim_path sep path_str max_length) <= max_length.
Proof.
  intros Hlong Hroom Hfirst. unfold trim_path, available_start, end_len, end_parts in *.
  destruct (Z.leb_spec (len path_str) max_length); [lia |].
  destruct (Z.leb_spec (max_length - len (join sep (last_two (split sep path_str))) - 5) 0);
    [lia |].
  rewrite len_append, len_String, len_append, len_String.
  pose proof (pack_within sep _ (middle (split sep path_str)) _ Hfirst) as Hp.
  pose proof (len_nonneg (join sep (last_two (split sep path_str)))).
  change (len ellipsis) with 3. lia.
Qed.

Lemma trim_path_bounded_witness :
  trim_path posix_sep deep_venv_str 30 = "/home/user/.../gamma/.venv"
  /\ len (trim_path posix_sep deep_venv_str 30) <= 30.
Proof.
  split; [reflexivity |].
  apply (trim_path_bounded posix_sep deep_venv_str 30).
  - reflexivity.
  - reflexivity.
  - vm_compute. discriminate.
Defined.

(** X2: on a platform other than Windows, the text the scan shows
    for a path is within the limit whenever the last two segments and
    the marker leave room: [str] of a path starts with the separator
    there, so its first segment is empty. *)
Theorem progress_text_bounded (host : Host) (p : Path) (max_length : Z) :
  win32 host = false ->
  0 < available_start (os_sep host) (str host p) max_length ->
  len (trim_path (os_sep host) (str host p) max_length) <= max_length.
Proof.
  intros Hposix Hroom.
  destruct (Z.leb_spec (len (str host p)) max_length) as [Hfits | Hlong].
  - rewrite trim_path_fits; assumption.
  - apply trim_path_within_limit; [assumption | assumption |].
    unfold str, anchor in *. rewrite Hposix in *. cbn [append] in *.
    rewrite split_leading_sep. cbn [first_part hd].
    change (len EmptyString) with 0. lia.
Qed.

Lemma progress_text_bounded_witness :
  len (trim_path (os_sep posix_host) (str posix_host deep_venv) 30) <= 30.
Proof.
  apply (progress_text_bounded posix_host deep_venv 30); reflexivity.
Defined.

(** X3: outside the fallback case, the output for a path longer than
    the limit is a leading piece of the path, the marker between two
    separators, and the last two segments, which are the trailing
    piece of the path. *)
Theorem trim_path_pieces (sep : ascii) (path_str : string) (max_length : Z) :
  max_length < len path_str ->
  0 < available_start sep path_str max_length ->
  exists kept dropped lead,
    trim_path sep path_str max_length
    = (kept ++ String sep (ellipsis ++ String sep (join sep (end_parts sep path_str))))%string
    /\ path_str = (kept ++ dropped)%string
    /\ path_str = (lead ++ join sep (end_parts sep path_str))%string.
Proof.
  intros Hlong Hroom. unfold trim_path, available_start, end_len, end_parts in *.
  destruct (Z.leb_spec (len path_str) max_length); [lia |].
  match goal with
  | |- context [if ?c then _ else _] => destruct c eqn:E
  end.
  { apply Z.leb_le in E. lia. }
  clear E.
  pose proof (split_nonempty sep path_str) as Hne.
  pose proof (join_split sep path_str) as Hjoin.
  destruct (split sep path_str) as [|first tl] eqn:Eparts; [contradiction Hne; reflexivity |].
  cbn [first_part hd].
  destruct (pack_join sep (max_length - len (join sep (last_two (first :: tl))) - 5)
                      (middle (first :: tl)) [first]) as (j & Hj); [discriminate |].
  change (join sep [first]) with first in Hj. rewrite Hj.
  unfold middle. cbn [skipn]. rewrite firstn_firstn. cbn [app].
  change (first :: firstn ?m tl) with (firstn (S m) (first :: tl)).
  destruct (join_firstn_prefix sep (first :: tl)
              (S (Nat.min j (List.length (first :: tl) - 2 - 1)))) as (dropped & Hd).
  destruct (join_skipn_suffix sep (first :: tl) (List.length (first :: tl) - 2))
    as (lead & Hl).
  eexists _, dropped, lead. split; [reflexivity |].
  rewrite Hjoin in Hd, Hl. split; [exact Hd | exact Hl].
Qed.

Lemma trim_path_pieces_witness :
  exists kept dropped lead,
    trim_path posix_sep deep_venv_str 30
    = (kept ++ String posix_sep (ellipsis ++ String posix_sep
                                            (join posix_sep (end_parts posix_sep deep_venv_str))))%string
    /\ deep_venv_str = (kept ++ dropped)%string
    /\ deep_venv_str = (lead ++ join posix_sep (end_parts posix_sep deep_venv_str))%string.
Proof.
  apply (trim_path_pieces posix_sep deep_venv_str 30); reflexivity.
Defined.

(** ** [_get_python_path] and [get_venv_packages] *)

Lemma follow_realpath (root : node) :
  forall fuel p n r,
    follow fuel root p = Some (n, r) ->
    descend root (realpath fuel root p) = Found n /\ (forall t, n <> Symlink t).
Proof.
  induction fuel as [|f IH]; intros p n r H; simpl in *.
  - discriminate.
  - destruct (descend root p) as [[sz mt|wr es|t]|q|] eqn:E.
    + injection H as <- _. split; [exact E | discriminate].
    + injection H as <- _. split; [exact E | discriminate].
    + apply (IH t n r H).
    + apply (IH q n r H).
    + discriminate.
Qed.

(** X4: when the interpreter exists, [_get_python_path] names the
    same file as the platform's path does and is not itself a
    symbolic link: what is run is the interpreter, not a link to it. *)
Theorem python_path_is_real (host : Host) (disk : node) (venv_path : Path) :
  exists_ disk (platform_python host venv_path) = true ->
  stat disk (_get_python_path host disk venv_path) = stat disk (platform_python host venv_path)
  /\ is_symlink disk (_get_python_path host disk venv_path) = false.
Proof.
  intros Hex. unfold _get_python_path.
  change (if win32 host then venv_path ++ ["Scripts"; "python.exe"]
          else venv_path ++ ["bin"; "python"])
    with (platform_python host venv_path).
  cbv zeta.
  destruct (is_symlink disk (platform_python host venv_path)) eqn:Hlink.
  - unfold exists_, stat in Hex.
    destruct (follow (S MAXSYMLINKS) disk (platform_python host venv_path)) as [[n r]|] eqn:Hf;
      [| discriminate].
    destruct (follow_realpath disk _ _ n r Hf) as [Hd Hn].
    unfold stat, is_symlink, lstat, resolve. rewrite Hf, follow_S, Hd.
    cbn [locate]. rewrite Hd. cbn [option_map fst snd].
    destruct n as [sz mt|wr es|t]; [split; reflexivity | split; reflexivity |].
    contradiction (Hn t). reflexivity.
  - split; [reflexivity | exact Hlink].
Qed.

(** [old/bin/python] is a link to [/usr/bin/python3]. *)
Lemma python_path_is_real_witness :
  stat sample_fs (_get_python_path posix_host sample_fs old_venv)
  = stat sample_fs (platform_python posix_host old_venv)
  /\ is_symlink sample_fs (_get_python_path posix_host sample_fs old_venv) = false.
Proof.
  apply (python_path_is_real posix_host sample_fs old_venv). reflexivity.
Defined.

Lemma package_dicts_lists (items : list json) (l : list package) :
  Forall2 lists_package items l -> package_dicts items = Some l.
Proof.
  induction 1 as [|item [n v] items l [Hn Hv] _ IH]; cbn [package_dicts].
  - reflexivity.
  - cbn [name version] in Hn, Hv. rewrite Hn, Hv, IH. reflexivity.
Qed.


(** X5: when the interpreter exists, [pip list] exits with code 0 and
    its output parses to a list of dictionaries that have a name and a
    version, [get_venv_packages] returns these names and versions,
    one entry per dictionary and in the same order, after running
    exactly one command, [pip list --format json] of that interpreter. *)
Theorem get_venv_packages_lists (host : Host) (verbose : bool) (venv_path : Path) (w : world)
        (stdout : string) (items : list json) (l : list package) :
  exists_ (fs w) (_get_python_path host (fs w) venv_path) = true ->
  subprocess_run host (fs w) (pip_list_cmd host (_get_python_path host (fs w) venv_path))
  = Completed 0 stdout ->
  json_loads host stdout = Some (JArr items) ->
  Forall2 lists_package items l ->
  fst (get_venv_packages host verbose venv_path w) = Returned (Some l)
  /\ spawns (trace (snd (get_venv_packages host verbose venv_path w)))
     = spawns (trace w) ++ [pip_list_cmd host (_get_python_path host (fs w) venv_path)].
Proof.
  intros Hex Hrun Hjson Hitems.
  unfold get_venv_packages. rewrite bind_emit, bind_get_fs. cbn [fs now trace].
  rewrite Hex. cbn [negb]. rewrite bind_emit. cbn [fs now trace].
  rewrite Hrun. change (0 =? 0) with true. cbn [negb].
  rewrite Hjson. cbn [iterate]. rewrite (package_dicts_lists items l Hitems).
  unfold ret. cbn [fst snd trace]. split; [reflexivity |].
  rewrite !spawns_app. cbn [spawns flat_map app]. rewrite app_nil_r. reflexivity.
Qed.

Lemma get_venv_packages_lists_witness :
  fst (get_venv_packages posix_host true old_venv (start sample_fs scan_time))
  = Returned (Some [{| name := JStr "pip"; version := JStr "24.0" |}])
  /\ spawns (trace (snd (get_venv_packages posix_host true old_venv
                                           (start sample_fs scan_time))))
     = spawns (trace (start sample_fs scan_time))
       ++ [pip_list_cmd posix_host
                        (_get_python_path posix_host (fs (start sample_fs scan_time)) old_venv)].
Proof.
  apply (get_venv_packages_lists posix_host true old_venv (start sample_fs scan_time)
           "[{'name': 'pip', 'version': '24.0'}]"
           [JObj [("name", JStr "pip"); ("version", JStr "24.0")]]).
  - reflexivity.
  - reflexivity.
  - reflexivity.
  - constructor; [split; reflexivity | constructor].
Defined.



(** ** [scan_virtualenvs]: what it yields and what it leaves alone *)





(** X9: a scan, whether it returns or raises, leaves the file system
    and the clock as they were and removes nothing. *)
Theorem scan_only_reads (host : Host) (verbose : bool) (root_path : Path)
        (older_than_days : option Z) (w : world) :
  fs (snd (scan_virtualenvs host verbose root_path older_than_days w)) = fs w
  /\ now (snd (scan_virtualenvs host verbose root_path older_than_days w)) = now w
  /\ removals (trace (snd (scan_virtualenvs host verbose root_path older_than_days w)))
     = removals (trace w).
Proof.
  split; [apply logs_fs, logs_scan_virtualenvs |].
  split; [apply logs_now, logs_scan_virtualenvs |].
  apply (removals_kept (fun e => scan_event e = true)).
  - apply scan_event_no_removal.
  - apply appends_scan_virtualenvs.
Qed.

Lemma scan_only_reads_removals (host : Host) (verbose : bool) (root_path : Path)
      (older_than_days : option Z) (w : world) :
  removals (trace (snd (scan_virtualenvs host verbose root_path older_than_days w)))
  = removals (trace w).
Proof.
  apply (removals_kept (fun e => scan_event e = true)).
  - apply scan_event_no_removal.
  - apply appends_scan_virtualenvs.
Qed.



(** X11: every record of a scan carries the size and the age of its
    own directory as they are at the time of the scan, and what the
    probe of that directory returns. *)
Theorem scan_record_fields (host : Host) (verbose : bool) (root_path : Path)
        (older_than_days : option Z) (w : world) (venvs : list VirtualEnv) (v : VirtualEnv) :
  fst (scan_virtualenvs host verbose root_path older_than_days w) = Returned venvs ->
  In v venvs ->
  get_dir_size (fs w) (path v) = Some (size_mb v)
  /\ get_dir_age_days host (fs w) (now w) (path v) = Some (age_days v)
  /\ fst (get_venv_packages host verbose (path v) (start (fs w) (now w)))
     = Returned (packages v).
Proof.
  intros H Hin.
  destruct (scan_virtualenvs_returned host verbose root_path older_than_days w venvs v H Hin)
    as (p & _ & E & Hprobe).
  pose proof (candidate_value_some host _ _ _ _ _ E) as (Hp & _ & _ & Hs & Ha & _).
  subst p. split; [exact Hs |]. split; [exact Ha | exact Hprobe].
Qed.

Lemma scan_record_fields_witness :
  get_dir_size sample_fs (path old_record) = Some (size_mb old_record)
  /\ get_dir_age_days posix_host sample_fs scan_time (path old_record)
     = Some (age_days old_record)
  /\ fst (get_venv_packages posix_host false (path old_record) (start sample_fs scan_time))
     = Returned (packages old_record).
Proof.
  apply (scan_record_fields posix_host false ["home"] None (start sample_fs scan_time)
                            [old_record; fresh_record] old_record).
  - vm_compute. reflexivity.
  - left. reflexivity.
Defined.

(** ** Size and age at the edges *)

(** X12: the age is the number of whole days between the local time
    of the newest file (an entry of the walk that [stat] shows to be a
    regular file, which a link to one is too) and the local time of
    the scan, rounded down: it is [a] exactly when the one lies at
    least [a] and less than [a + 1] times 86400000000 microseconds
    before the other. *)
Theorem age_days_rounds_down (host : Host) (disk : node) (t : Z) (p f : Path) (s m l : Z) :
  In f (rglob disk p) ->
  stat disk f = Some (File s m) ->
  (forall f' s' m', In f' (rglob disk p) -> stat disk f' = Some (File s' m') -> m' <= m) ->
  fromtimestamp host m = LocalTime l ->
  exists a,
    get_dir_age_days host disk t p = Some a
    /\ a * 86400000000 <= datetime_now host t - l < (a + 1) * 86400000000.
Proof.
  intros Hin Hst Hnewest Hlocal. rewrite get_dir_age_days_value.
  destruct (file_mtimes (stat disk) (rglob disk p)) as [|m0 ms] eqn:E.
  - assert (In m (file_mtimes (stat disk) (rglob disk p))) as Hm
        by (apply in_file_mtimes; exists f, s; auto).
    rewrite E in Hm. contradiction.
  - rewrite (newest_mtime disk _ f s m m0 ms E Hin Hst Hnewest), Hlocal.
    eexists. split; [reflexivity |].
    unfold day_us. change (86400 * 1000000) with 86400000000.
    assert (0 < 86400000000) as Hday by reflexivity.
    pose proof (Z.mul_div_le (datetime_now host t - l) 86400000000 Hday).
    pose proof (Z.mul_succ_div_gt (datetime_now host t - l) 86400000000 Hday).
    lia.
Qed.

(** [fresh] five hours after [scan_time]: two days and five hours old. *)
Lemma age_days_rounds_down_witness :
  exists a,
    get_dir_age_days posix_host sample_fs (scan_time + 5 * hour_us) fresh_venv = Some a
    /\ a * 86400000000
       <= datetime_now posix_host (scan_time + 5 * hour_us) - (98 * day_us + hour_us)
       < (a + 1) * 86400000000.
Proof.
  apply (age_days_rounds_down posix_host sample_fs (scan_time + 5 * hour_us)
           fresh_venv (fresh_venv ++ ["pyvenv.cfg"]) 2097152 (98 * day_us)).
  - vm_compute. left. reflexivity.
  - reflexivity.
  - intros f' s' m' Hin Hst. vm_compute in Hin. destruct Hin as [<- | []].
    vm_compute in Hst. injection Hst as _ <-. apply Z.leb_le. reflexivity.
  - reflexivity.
Defined.

Lemma file_bytes_none (disk : node) (files : list Path) :
  (forall f, In f files -> is_file disk f = false) ->
  file_bytes (stat disk) files = 0.
Proof.
  induction files as [|f rest IH]; intros H; simpl.
  - reflexivity.
  - pose proof (H f (or_introl eq_refl)) as Hf. unfold is_file in Hf.
    destruct (stat disk f) as [[sz mt|wr es|t]|]; try discriminate;
      apply IH; intros f' Hin; apply H; right; exact Hin.
Qed.

(** X13: a path beneath which the walk finds no regular file (an
    empty directory, a directory of directories, or no directory at
    all) has size 0; nothing is raised. *)
Theorem get_dir_size_no_files (disk : node) (p : Path) :
  (forall f, In f (rglob disk p) -> is_file disk f = false) ->
  exists size_mb, get_dir_size disk p = Some size_mb /\ (size_mb == 0)%Q.
Proof.
  intros H. rewrite get_dir_size_value, (file_bytes_none disk _ H).
  eexists. split; reflexivity.
Qed.

Lemma get_dir_size_no_files_witness :
  exists size_mb, get_dir_size sample_fs empty_dir = Some size_mb /\ (size_mb == 0)%Q.
Proof.
  apply (get_dir_size_no_files sample_fs empty_dir).
  intros f Hin. vm_compute in Hin. contradiction.
Defined.

(** ** [remove_virtualenv]: what it refuses and what it spares *)

(** X14: of a path that is not itself a directory (a missing path, a
    regular file, a symbolic link, also one that leads to a
    directory) [remove_virtualenv] returns false; the file system is
    as it was, and the failure is reported on the standard error
    stream. *)
Theorem remove_virtualenv_refuses (p : Path) (w : world) :
  (forall wr es, lstat (fs w) p <> Some (Dir wr es)) ->
  fst (remove_virtualenv p w) = Returned false
  /\ fs (snd (remove_virtualenv p w)) = fs w
  /\ trace (snd (remove_virtualenv p w)) = trace w ++ [Rmtree p; Stderr (FailedToRemove p)].
Proof.
  intros Hnot. rewrite remove_virtualenv_run. unfold rmtree. cbn [fst snd fs trace].
  unfold lstat in Hnot.
  destruct (locate (S MAXSYMLINKS) (fs w) p) as [[q [sz mt|wr es|t]]|];
    cbn [fst snd]; rewrite <- ?app_assoc; try (repeat split; reflexivity).
  contradiction (Hnot wr es). reflexivity.
Qed.

(** [old/bin/python] is a symbolic link. *)
Lemma remove_virtualenv_refuses_witness :
  fst (remove_virtualenv (old_venv ++ ["bin"; "python"]) (start sample_fs scan_time))
  = Returned false
  /\ fs (snd (remove_virtualenv (old_venv ++ ["bin"; "python"]) (start sample_fs scan_time)))
     = fs (start sample_fs scan_time)
  /\ trace (snd (remove_virtualenv (old_venv ++ ["bin"; "python"]) (start sample_fs scan_time)))
     = trace (start sample_fs scan_time)
       ++ [Rmtree (old_venv ++ ["bin"; "python"]);
           Stderr (FailedToRemove (old_venv ++ ["bin"; "python"]))].
Proof.
  apply (remove_virtualenv_refuses (old_venv ++ ["bin"; "python"]) (start sample_fs scan_time)).
  intros wr es H. vm_compute in H. discriminate H.
Defined.

Lemma descend_remove_other (p' : Path) :
  forall cur q n,
    is_prefix q p' = false ->
    is_prefix p' q = false ->
    descend cur p' = Found n ->
    descend (remove_at cur q) p' = Found n.
Proof.
  induction p' as [|c rest IH]; intros cur q n Hq Hp H.
  - discriminate Hp.
  - destruct cur as [sz mt|wr es|tg]; try discriminate.
    cbn [descend] in H.
    destruct (lookup_entry c es) as [n1|] eqn:E; [| discriminate].
    destruct q as [|c' [|c'' q']]; [discriminate Hq | |].
    + cbn [is_prefix] in Hq. rewrite andb_true_r in Hq.
      cbn [remove_at descend]. rewrite lookup_delete_other, E; [exact H |].
      intros ->. rewrite String.eqb_refl in Hq. discriminate.
    + remember (c'' :: q') as q2 eqn:Hq2.
      assert (remove_at (Dir wr es) (c' :: q2)
              = Dir wr (update_entry c' (fun n => remove_at n q2) es)) as ->
          by (subst q2; reflexivity).
      cbn [descend]. cbn [is_prefix] in Hq, Hp.
      destruct (String.eqb_spec c c') as [->|Hne].
      * rewrite String.eqb_refl in Hq. cbn [andb] in Hq, Hp.
        rewrite lookup_update_same, E. cbn [option_map].
        apply IH; assumption.
      * rewrite lookup_update_other, E by exact Hne. exact H.
Qed.

Lemma descend_replace_other (p' : Path) :
  forall cur q new n,
    is_prefix q p' = false ->
    is_prefix p' q = false ->
    descend cur p' = Found n ->
    descend (replace_at cur q new) p' = Found n.
Proof.
  induction p' as [|c rest IH]; intros cur q new n Hq Hp H.
  - discriminate Hp.
  - destruct cur as [sz mt|wr es|tg]; try discriminate.
    cbn [descend] in H.
    destruct (lookup_entry c es) as [n1|] eqn:E; [| discriminate].
    destruct q as [|c' q2]; [discriminate Hq |].
    cbn [replace_at descend]. cbn [is_prefix] in Hq, Hp.
    destruct (String.eqb_spec c c') as [->|Hne].
    + rewrite String.eqb_refl in Hq. cbn [andb] in Hq, Hp.
      rewrite lookup_update_same, E. cbn [option_map].
      apply IH; assumption.
    + rewrite lookup_update_other, E by exact Hne. exact H.
Qed.

(** X15: removing a directory, whether it succeeds or stops half
    way, leaves every entry that lies neither in it nor above it where
    it was and as it was: an environment beside the removed one is not
    touched. *)
Theorem remove_virtualenv_spares_others (p : Path) (w : world) (wr : bool)
        (es : list (string * node)) (p' : Path) (n : node) :
  lstat (fs w) p = Some (Dir wr es) ->
  descend (fs w) p' = Found n ->
  is_prefix (resolve (fs w) p) p' = false ->
  is_prefix p' (resolve (fs w) p) = false ->
  descend (fs (snd (remove_virtualenv p w))) p' = Found n.
Proof.
  intros Hl Hd Hq Hp. unfold lstat in Hl.
  destruct (locate (S MAXSYMLINKS) (fs w) p) as [[q n0]|] eqn:E; [| discriminate].
  cbn [option_map snd] in Hl. injection Hl as ->.
  unfold resolve in Hq, Hp. rewrite (locate_realpath _ wr es q _ _ E) in Hq, Hp.
  rewrite remove_virtualenv_run. cbn [snd fs]. unfold rmtree. rewrite E.
  destruct (clear (Dir wr es)) as [emptied ok].
  destruct (ok && parent_writable (fs w) q && negb (is_root q)); cbn [fst].
  - apply descend_remove_other; assumption.
  - apply descend_replace_other; assumption.
Qed.

(** Removing [old] leaves [fresh]; and failing to remove
    [/data/locked] leaves [/data/open]. *)
Lemma remove_virtualenv_spares_others_witness :
  descend (fs (snd (remove_virtualenv old_venv (start sample_fs scan_time)))) fresh_venv
  = Found fresh_dir
  /\ descend (fs (snd (remove_virtualenv locked_venv (start locked_fs scan_time)))) open_venv
     = Found (Dir true locked_entries).
Proof.
  split.
  - apply (remove_virtualenv_spares_others old_venv (start sample_fs scan_time)
                                           true old_entries); reflexivity.
  - apply (remove_virtualenv_spares_others locked_venv (start locked_fs scan_time)
                                           false locked_entries); reflexivity.
Defined.

(** ** [process_virtualenvs]: what is removed and what is said *)

Lemma removals_remove_virtualenv (p : Path) (w : world) :
  removals (trace (snd (remove_virtualenv p w))) = removals (trace w) ++ [p].
Proof.
  rewrite remove_virtualenv_run. cbn [snd trace].
  destruct (snd (rmtree (fs w) p)); rewrite !removals_app;
    cbn [removals flat_map app]; rewrite ?app_nil_r; reflexivity.
Qed.

(** The [except] clause of [process_virtualenvs] prints nothing and
    changes nothing. *)
Lemma process_virtualenvs_world (host : Host) (verbose : bool) (root : Path) (args : Args)
      (w : world) :
  snd (process_virtualenvs host verbose root args w) = snd (report host verbose root args w).
Proof.
  unfold process_virtualenvs, try_catch.
  destruct (report host verbose root args w) as [[[] | e] w1]; reflexivity.
Qed.

Lemma process_virtualenvs_returned (host : Host) (verbose : bool) (root : Path) (args : Args)
      (w : world) :
  fst (process_virtualenvs host verbose root args w) = Returned tt ->
  fst (report host verbose root args w) = Returned tt.
Proof.
  unfold process_virtualenvs, try_catch.
  destruct (report host verbose root args w) as [[[] | e] w1]; [reflexivity | discriminate].
Qed.

Section Removals.

Variable host : Host.

(** A record that is processed to the end is passed to [rmtree] when
    it is broken and [--remove-broken] is given, and only then. *)
Lemma removals_process_one (args : Args) (venv : VirtualEnv) (w : world) :
  fst (process_one host args venv w) = Returned tt ->
  removals (trace (snd (process_one host args venv w)))
  = removals (trace w)
    ++ (if is_broken venv && remove_broken args then [path venv] else []).
Proof.
  unfold process_one.
  pose proof (removals_kept (fun e => display_event e = true)
                (display_venv_info host venv (list_packages args)) w
                display_event_no_removal
                (appends_display_venv_info host venv (list_packages args))) as Hd.
  destruct (display_venv_info host venv (list_packages args) w) as [[[] | e] w1] eqn:E;
    rewrite (bind_run _ _ _ _ _ E); [| discriminate].
  cbn [snd] in Hd. intros _.
  destruct (is_broken venv && remove_broken args).
  - rewrite bind_print_renders by reflexivity. unfold bind.
    pose proof (removals_remove_virtualenv
                  (path venv)
                  {| fs := fs w1; now := now w1; trace := trace w1 ++ [Print RemovingBroken] |})
      as Hr.
    destruct (remove_virtualenv (path venv) _) as [[ok | e] w2].
    + cbn [snd trace] in Hr. rewrite removals_app, Hd in Hr.
      cbn [removals flat_map app] in Hr. rewrite app_nil_r in Hr.
      destruct ok; rewrite print_renders by reflexivity; cbn [snd trace];
        rewrite removals_app, Hr; cbn [removals flat_map app]; rewrite app_nil_r;
        reflexivity.
    + cbn [snd trace] in *. rewrite Hr, removals_app, Hd.
      cbn [removals flat_map app]. rewrite app_nil_r. reflexivity.
  - cbn [ret snd]. rewrite Hd, app_nil_r. reflexivity.
Qed.

Lemma removals_for_each (args : Args) (venvs : list VirtualEnv) :
  forall w,
    fst (for_each venvs (process_one host args) w) = Returned tt ->
    removals (trace (snd (for_each venvs (process_one host args) w)))
    = removals (trace w)
      ++ map path (filter (fun v => is_broken v && remove_broken args) venvs).
Proof.
  induction venvs as [|v rest IH]; intros w; cbn [for_each filter].
  - intros _. unfold ret. cbn [snd map]. rewrite app_nil_r. reflexivity.
  - pose proof (removals_process_one args v w) as H1.
    destruct (process_one host args v w) as [[[] | e] w1] eqn:E;
      rewrite (bind_run _ _ _ _ _ E); [| discriminate].
    cbn [fst snd] in H1. intros Hret.
    rewrite (IH w1 Hret), (H1 eq_refl), <- app_assoc.
    destruct (is_broken v && remove_broken args); reflexivity.
Qed.

Lemma appends_process_one (args : Args) (venv : VirtualEnv) :
  appends (fun e => report_event e = true) (process_one host args venv).
Proof.
  unfold process_one.
  apply appends_bind.
  - apply (appends_weaken (fun e => display_event e = true)).
    + intros e He. destruct e as [[]| | | | |]; simpl in *; congruence.
    + apply appends_display_venv_info.
  - intros _. unfold remove_virtualenv.
    repeat (appends_step || (destruct (rmtree _ _) as [? []])).
Qed.

End Removals.

(** X16: when [process_virtualenvs] returns, it has called [rmtree]
    for the broken records of the scan if [--remove-broken] is given,
    once each and in the order of the scan, and for nothing else; a
    healthy record is never passed to it, whatever the other flags
    are. *)
Theorem process_removes_broken_only (host : Host) (verbose : bool) (root : Path)
        (args : Args) (w : world) (venvs : list VirtualEnv) :
  fst (scan_virtualenvs host verbose root (older_than args) w) = Returned venvs ->
  fst (process_virtualenvs host verbose root args w) = Returned tt ->
  removals (trace (snd (process_virtualenvs host verbose root args w)))
  = removals (trace w)
    ++ map path (filter (fun v => is_broken v && remove_broken args) venvs).
Proof.
  intros Hscan Hret. apply process_virtualenvs_returned in Hret.
  rewrite process_virtualenvs_world. revert Hret. unfold report.
  pose proof (scan_only_reads_removals host verbose root (older_than args) w) as Hs.
  destruct (scan_virtualenvs host verbose root (older_than args) w) as [[vs | e] w1] eqn:E;
    [| discriminate Hscan].
  cbn [fst snd] in *. injection Hscan as ->.
  rewrite (bind_run _ _ _ _ _ E).
  destruct venvs as [|v vs].
  - intros _. rewrite print_renders by reflexivity. cbn [snd trace filter map].
    rewrite removals_app, Hs. reflexivity.
  - pose proof (removals_for_each host args (v :: vs) w1) as Hf.
    destruct (for_each (v :: vs) (process_one host args) w1) as [[[] | e] w2] eqn:E2;
      rewrite (bind_run _ _ _ _ _ E2); [| discriminate].
    cbn [fst snd] in Hf. specialize (Hf eq_refl). intros _.
    rewrite !bind_print_renders by reflexivity. cbv beta.
    destruct (truthy (older_than args) && negb (remove args)); cbn [when];
      [rewrite print_renders by reflexivity |]; cbn [ret snd trace fs now];
      rewrite !removals_app, Hf, Hs; cbn [removals flat_map app];
      rewrite ?app_nil_r; reflexivity.
Qed.

(** [--remove-broken] on [/home]: [fresh] is passed to [rmtree], [old]
    is not. *)
Lemma process_removes_broken_only_witness :
  removals (trace (snd (process_virtualenvs posix_host false ["home"] (purge_args ["home"])
                                            (start sample_fs scan_time))))
  = removals (trace (start sample_fs scan_time))
    ++ map path (filter (fun v => is_broken v && remove_broken (purge_args ["home"]))
                        [old_record; fresh_record]).
Proof.
  apply (process_removes_broken_only posix_host false ["home"] (purge_args ["home"])
                                     (start sample_fs scan_time)).
  - vm_compute. reflexivity.
  - vm_compute. reflexivity.
Defined.

(** X17: without [--remove-broken], [process_virtualenvs] leaves the
    file system as it was, whether [--remove] is given or not and
    whether it returns or raises. *)
Theorem process_without_remove_broken (host : Host) (verbose : bool) (root : Path)
        (args : Args) (w : world) :
  remove_broken args = false ->
  fs (snd (process_virtualenvs host verbose root args w)) = fs w.
Proof.
  intros H. apply logs_fs, logs_process_virtualenvs. exact H.
Qed.

Lemma process_without_remove_broken_witness :
  remove (remove_args ["home"]) = true
  /\ fs (snd (process_virtualenvs posix_host false ["home"] (remove_args ["home"])
                                  (start sample_fs scan_time)))
     = fs (start sample_fs scan_time).
Proof.
  split; [reflexivity |].
  apply (process_without_remove_broken posix_host false ["home"] (remove_args ["home"])
                                       (start sample_fs scan_time)).
  reflexivity.
Defined.

Lemma no_note_among (Q : event -> bool) (evs : list event) :
  Q (Print DryRunNote) = false ->
  Forall (fun e => Q e = true) evs ->
  ~ In (Print DryRunNote) evs.
Proof.
  intros HQ HF Hin. rewrite Forall_forall in HF. specialize (HF _ Hin). congruence.
Qed.

(** X18: the dry-run note is printed only when the age threshold is
    set and not 0, [--remove] is not given and the scan has yielded a
    record; with [--remove], or without a threshold, it never is. *)
Theorem dry_run_note_only_if (host : Host) (verbose : bool) (root : Path) (args : Args)
        (w : world) :
  In (Print DryRunNote) (trace (snd (process_virtualenvs host verbose root args w))) ->
  ~ In (Print DryRunNote) (trace w) ->
  truthy (older_than args) = true
  /\ remove args = false
  /\ exists v vs,
      fst (scan_virtualenvs host verbose root (older_than args) w) = Returned (v :: vs).
Proof.
  rewrite process_virtualenvs_world. unfold report. intros Hin Hout.
  destruct (appends_scan_virtualenvs host verbose root (older_than args) w)
    as (e1 & Ht1 & HF1).
  pose proof (no_note_among scan_event e1 eq_refl HF1) as Hn1.
  destruct (scan_virtualenvs host verbose root (older_than args) w) as [[venvs | e] w1] eqn:E;
    rewrite (bind_run _ _ _ _ _ E) in Hin; cbn [fst snd] in *.
  - destruct venvs as [|v vs].
    + rewrite print_renders in Hin by reflexivity. cbn [snd trace] in Hin.
      rewrite Ht1 in Hin.
      apply in_app_or in Hin. destruct Hin as [Hin | [Hin | []]]; [| discriminate Hin].
      apply in_app_or in Hin. destruct Hin; contradiction.
    + destruct (appends_for_each (fun e => report_event e = true) (process_one host args)
                  (v :: vs) (appends_process_one host args) w1) as (e2 & Ht2 & HF2).
      pose proof (no_note_among report_event e2 eq_refl HF2) as Hn2.
      destruct (for_each (v :: vs) (process_one host args) w1) as [[[] | e] w2] eqn:E2;
        rewrite (bind_run _ _ _ _ _ E2) in Hin; cbn [snd] in Ht2.
      * rewrite !bind_print_renders in Hin by reflexivity. cbv beta in Hin.
        destruct (truthy (older_than args) && negb (remove args)) eqn:Hc.
        -- apply andb_true_iff in Hc. destruct Hc as [Htr Hrm].
           apply negb_true_iff in Hrm.
           split; [exact Htr |]. split; [exact Hrm |]. exists v, vs. reflexivity.
        -- exfalso. cbn [when ret snd trace fs now] in Hin.
           rewrite Ht2, Ht1 in Hin.
           repeat (apply in_app_or in Hin; destruct Hin as [Hin | Hin]);
             try contradiction;
             repeat (destruct Hin as [Hin | Hin]; [discriminate Hin |]); contradiction.
      * exfalso. cbn [snd] in Hin. rewrite Ht2, Ht1 in Hin.
        repeat (apply in_app_or in Hin; destruct Hin as [Hin | Hin]); contradiction.
  - exfalso. rewrite Ht1 in Hin. apply in_app_or in Hin. destruct Hin; contradiction.
Qed.

Lemma dry_run_note_only_if_witness :
  truthy (older_than (report_args ["home"])) = true
  /\ remove (report_args ["home"]) = false
  /\ exists v vs,
      fst (scan_virtualenvs posix_host false ["home"] (older_than (report_args ["home"]))
                            (start sample_fs scan_time)) = Returned (v :: vs).
Proof.
  apply (dry_run_note_only_if posix_host false ["home"] (report_args ["home"])
                              (start sample_fs scan_time)).
  - vm_compute. repeat (first [left; reflexivity | right]).
  - intros [].
Defined.

(** ** When the console refuses a path *)

(** X19: when the console refuses the path line of the first record
    of the scan, [process_virtualenvs] raises [TypeError] (the
    [MarkupError] of [display_venv_info] reaches the [except] clause,
    whose own [console.print] is called with a keyword it does not
    have) before any record is removed: the file system is as it was,
    and neither totals nor a dry-run note are printed. *)
Theorem process_stops_at_refused_path (host : Host) (verbose : bool) (root : Path)
        (args : Args) (w : world) (v : VirtualEnv) (vs : list VirtualEnv) :
  fst (scan_virtualenvs host verbose root (older_than args) w) = Returned (v :: vs) ->
  renders host (ShowPath (path v)) = false ->
  fst (process_virtualenvs host verbose root args w) = Raised TypeError
  /\ snd (process_virtualenvs host verbose root args w)
     = snd (scan_virtualenvs host verbose root (older_than args) w)
  /\ fs (snd (process_virtualenvs host verbose root args w)) = fs w
  /\ removals (trace (snd (process_virtualenvs host verbose root args w)))
     = removals (trace w).
Proof.
  intros Hscan Hpath.
  assert (process_virtualenvs host verbose root args w
          = (Raised TypeError, snd (scan_virtualenvs host verbose root (older_than args) w)))
    as Hrun.
  { unfold process_virtualenvs, try_catch, report.
    destruct (scan_virtualenvs host verbose root (older_than args) w) as [[venvs | e] w1] eqn:E;
      [| discriminate Hscan].
    cbn [fst] in Hscan. injection Hscan as ->.
    rewrite (bind_run _ _ _ _ _ E).
    assert (display_venv_info host v (list_packages args) w1 = (Raised MarkupError, w1)) as H1
        by (unfold display_venv_info; apply bind_print_fails; exact Hpath).
    assert (process_one host args v w1 = (Raised MarkupError, w1)) as H2
        by (unfold process_one; rewrite (bind_run _ _ _ _ _ H1); reflexivity).
    assert (for_each (v :: vs) (process_one host args) w1 = (Raised MarkupError, w1)) as H3
        by (cbn [for_each]; rewrite (bind_run _ _ _ _ _ H2); reflexivity).
    rewrite (bind_run _ _ _ _ _ H3). reflexivity. }
  rewrite Hrun. cbn [fst snd].
  split; [reflexivity |]. split; [reflexivity |].
  split; [apply logs_fs, logs_scan_virtualenvs | apply scan_only_reads_removals].
Qed.

(** [--remove-broken] on [/w], whose broken environment has a closing
    tag in its name: it is found and not removed. *)
Lemma process_stops_at_refused_path_witness :
  fst (process_virtualenvs rich_host false ["w"] (purge_args ["w"])
                           (start markup_fs scan_time)) = Raised TypeError
  /\ snd (process_virtualenvs rich_host false ["w"] (purge_args ["w"])
                              (start markup_fs scan_time))
     = snd (scan_virtualenvs rich_host false ["w"] (older_than (purge_args ["w"]))
                             (start markup_fs scan_time))
  /\ fs (snd (process_virtualenvs rich_host false ["w"] (purge_args ["w"])
                                  (start markup_fs scan_time)))
     = fs (start markup_fs scan_time)
  /\ removals (trace (snd (process_virtualenvs rich_host false ["w"] (purge_args ["w"])
                                               (start markup_fs scan_time))))
     = removals (trace (start markup_fs scan_time)).
Proof.
  apply (process_stops_at_refused_path
           rich_host false ["w"] (purge_args ["w"]) (start markup_fs scan_time)
           {| path := markup_venv;
              size_mb := true_divide 10 (1024 * 1024);
              age_days := 40;
              is_broken := true;
              packages := None |} []).
  - vm_compute. reflexivity.
  - reflexivity.
Defined.

(** ** After a removal *)

(** A removal that succeeded took a directory with a parent out of
    the tree. *)
Lemma rmtree_succeeded (disk : node) (p : Path) :
  snd (rmtree disk p) = true ->
  exists q wr es,
    locate (S MAXSYMLINKS) disk p = Some (q, Dir wr es)
    /\ q <> []
    /\ fst (rmtree disk p) = remove_at disk q.
Proof.
  unfold rmtree.
  destruct (locate (S MAXSYMLINKS) disk p) as [[q [sz mt|wr es|t]]|]; try discriminate.
  destruct (clear (Dir wr es)) as [emptied ok].
  destruct (ok && parent_writable disk q && negb (is_root q)) eqn:Hc; [| discriminate].
  intros _. exists q, wr, es. split; [reflexivity |]. split; [| reflexivity].
  apply andb_true_iff in Hc. destruct Hc as [_ Hroot].
  destruct q; [discriminate Hroot | discriminate].
Qed.

(** X20: a directory that [remove_virtualenv] has removed is not
    among the records of a scan made afterwards. *)
Theorem removed_not_rescanned (host : Host) (verbose : bool) (root_path : Path)
        (older_than_days : option Z) (p : Path) (w : world) (venvs : list VirtualEnv) :
  fst (remove_virtualenv p w) = Returned true ->
  fst (scan_virtualenvs host verbose root_path older_than_days (snd (remove_virtualenv p w)))
  = Returned venvs ->
  ~ In p (map path venvs).
Proof.
  rewrite remove_virtualenv_run. cbn [fst snd]. intros Hok Hscan Hin.
  injection Hok as Hok.
  destruct (rmtree_succeeded (fs w) p Hok) as (q & wr & es & E & Hroot & Hfs).
  apply in_map_iff in Hin. destruct Hin as (v & Hpath & Hv).
  destruct (scan_virtualenvs_returned host verbose root_path older_than_days _ venvs v
                                      Hscan Hv) as (p' & _ & Hc & _).
  apply candidate_value_some in Hc. destruct Hc as (Hp & Hdir & _).
  rewrite Hpath in Hp. subst p'. cbn [fs] in Hdir. rewrite Hfs in Hdir.
  unfold is_dir, stat in Hdir.
  rewrite (follow_after_removal (fs w) q (Dir wr es) Hroot _ _ E) in Hdir.
  discriminate Hdir.
Qed.

Lemma removed_not_rescanned_witness :
  fst (scan_virtualenvs posix_host false ["home"] None
                        (snd (remove_virtualenv old_venv (start sample_fs scan_time))))
  = Returned [fresh_record]
  /\ ~ In old_venv (map path [fresh_record]).
Proof.
  assert (fst (scan_virtualenvs posix_host false ["home"] None
                                (snd (remove_virtualenv old_venv (start sample_fs scan_time))))
          = Returned [fresh_record]) as H by (vm_compute; reflexivity).
  split; [exact H |].
  apply (removed_not_rescanned posix_host false ["home"] None old_venv
                               (start sample_fs scan_time) [fresh_record]).
  - reflexivity.
  - exact H.
Defined.

(** ** [display_venv_info] *)

(** X21: for a healthy record whose path and package lines the
    console renders, [display_venv_info] returns after printing the
    path, the size, the age and "ok"; the packages follow, under one
    heading and in the order of the list, only when the list-packages
    flag is given and the list is not empty. *)
Theorem display_lists_packages (host : Host) (v : VirtualEnv) (show_packages : bool)
        (l : list package) (w : world) :
  displayable host v ->
  is_broken v = false ->
  packages v = Some l ->
  fst (display_venv_info host v show_packages w) = Returned tt
  /\ trace (snd (display_venv_info host v show_packages w))
     = trace w
       ++ [Print (ShowPath (path v)); Print (ShowSize (size_mb v));
           Print (ShowAge (age_days v)); Print ShowOk]
       ++ (if show_packages && negb (Nat.eqb (List.length l) 0)
           then Print InstalledPackages
                :: map (fun pkg => Print (ShowPackage (name pkg) (version pkg))) l
           else []).
Proof.
  intros [Hpath Hpkgs] Hb Hp. unfold display_venv_info. rewrite Hb, Hp.
  rewrite bind_print_renders by exact Hpath.
  rewrite !bind_print_renders by reflexivity. cbv beta. cbn [fs now trace].
  destruct l as [|pkg pkgs].
  - rewrite andb_false_r. cbn [ret fst snd trace].
    rewrite <- !app_assoc. split; reflexivity.
  - change (negb (Nat.eqb (List.length (pkg :: pkgs)) 0)) with true. rewrite andb_true_r.
    destruct show_packages; cbn [when].
    + rewrite bind_print_renders by reflexivity.
      rewrite (for_each_print_run host (fun pkg0 => ShowPackage (name pkg0) (version pkg0)))
        by (intros x Hx; exact (Hpkgs (pkg :: pkgs) x Hp Hx)).
      cbn [fst snd fs now trace]. rewrite <- !app_assoc. split; reflexivity.
    + cbn [ret fst snd trace]. rewrite <- !app_assoc. split; reflexivity.
Qed.

Lemma display_lists_packages_witness :
  fst (display_venv_info posix_host old_record true (start sample_fs scan_time)) = Returned tt
  /\ trace (snd (display_venv_info posix_host old_record true (start sample_fs scan_time)))
     = trace (start sample_fs scan_time)
       ++ [Print (ShowPath (path old_record)); Print (ShowSize (size_mb old_record));
           Print (ShowAge (age_days old_record)); Print ShowOk]
       ++ (if true && negb (Nat.eqb (List.length [{| name := JStr "pip";
                                                     version := JStr "24.0" |}]) 0)
           then Print InstalledPackages
                :: map (fun pkg => Print (ShowPackage (name pkg) (version pkg)))
                       [{| name := JStr "pip"; version := JStr "24.0" |}]
           else []).
Proof.
  apply (display_lists_packages posix_host old_record true
                                [{| name := JStr "pip"; version := JStr "24.0" |}]
                                (start sample_fs scan_time)).
  - split; [reflexivity | intros l pkg _ _; reflexivity].
  - reflexivity.
  - reflexivity.
Defined.

(** ** Dates out of range *)

(** X22: when [fromtimestamp] raises [ValueError] for the newest
    modification time (a year after 9999), the [except] clause meant
    for [max] of no file catches it and the age is 0. *)
Theorem age_days_zero_out_of_range (host : Host) (disk : node) (t : Z) (p f : Path)
        (s m : Z) :
  In f (rglob disk p) ->
  stat disk f = Some (File s m) ->
  (forall f' s' m', In f' (rglob disk p) -> stat disk f' = Some (File s' m') -> m' <= m) ->
  fromtimestamp host m = RaisesValueError ->
  get_dir_age_days host disk t p = Some 0.
Proof.
  intros Hin Hst Hnewest Hraise. rewrite get_dir_age_days_value.
  destruct (file_mtimes (stat disk) (rglob disk p)) as [|m0 ms] eqn:E; [reflexivity |].
  rewrite (newest_mtime disk _ f s m m0 ms E Hin Hst Hnewest), Hraise. reflexivity.
Qed.

Lemma age_days_zero_out_of_range_witness :
  get_dir_age_days bounded_host aged_fs scan_time ["d"; "future"] = Some 0.
Proof.
  apply (age_days_zero_out_of_range bounded_host aged_fs scan_time ["d"; "future"]
           ["d"; "future"; "pyvenv.cfg"] 10 (3000100 * day_us)).
  - vm_compute. left. reflexivity.
  - reflexivity.
  - intros f' s' m' Hin Hst. vm_compute in Hin. destruct Hin as [<- | []].
    vm_compute in Hst. injection Hst as _ <-. apply Z.leb_le. reflexivity.
  - reflexivity.
Defined.
(** ** Removal only takes away *)










(** *** When every directory is writable *)














Section Gone.

Variable host : Host.






End Gone.


